(** * The [npy_data] table of the OSRS Trade Ledger

    A shallow embedding of the derived-row table declared in
    [py/gui/satellite_frames/README.md] (the SQL schema [npy_data] with its
    CHECK / NOT NULL / UNIQUE constraints and its GENERATED ALWAYS columns),
    together with the properties the specification states about derived rows.

    The schema is SQL, so the embedding has three layers:
    - [Real]: IEEE-754 binary64, the representation of SQL REAL values,
      taken from the standard library's [SpecFloat];
    - [Sql]: SQL values with NULL, three-valued logic and the scalar
      operators and functions the schema uses;
    - [Npy]: the row type, the generated columns (one definition per column,
      transliterated from the schema), the constraints and the table. *)

From Stdlib Require Import ZArith Lia Bool List SpecFloat.
From Stdlib Require String DecimalString.
Import ListNotations.
Local Open Scope Z_scope.

(* ================================================================== *)
(** * Binary64 reals *)
(* ================================================================== *)

Module Real.

Definition prec : Z := 53.
Definition emax : Z := 1024.

Definition real := spec_float.

(** Conversion of a 64-bit integer to the nearest double. *)
Definition of_int (z : Z) : real := binary_normalize prec emax z 0 false.

Definition mul : real -> real -> real := SFmul prec emax.
Definition div : real -> real -> real := SFdiv prec emax.
Definition add : real -> real -> real := SFadd prec emax.
Definition sub : real -> real -> real := SFsub prec emax.

Definition zero : real := S754_zero false.

Definition is_zero (f : real) : bool :=
  match f with S754_zero _ => true | _ => false end.

Definition is_nan (f : real) : bool :=
  match f with S754_nan => true | _ => false end.

(** Integer part of a finite double, rounding toward zero. *)
Definition trunc (f : real) : Z :=
  match f with
  | S754_finite s m e =>
      let a := if 0 <=? e then Zpos m * 2 ^ e else Zpos m / 2 ^ (- e) in
      if s then - a else a
  | _ => 0
  end.

(** Exact comparison of an integer with a double. *)
Definition compare_int (z : Z) (f : real) : option comparison :=
  match f with
  | S754_nan => None
  | S754_infinity s => Some (if s then Gt else Lt)
  | S754_zero _ => Some (z ?= 0)
  | S754_finite s m e =>
      let v := if s then Zneg m else Zpos m in
      Some (if 0 <=? e then z ?= v * 2 ^ e else z * 2 ^ (- e) ?= v)
  end.

(** The literal [0.01]: the double nearest to 1/100,
    5764607523034235 * 2^-59. *)
Definition m_0_01 : Z := 5764607523034235.
Definition lit_0_01 : real := S754_finite false 5764607523034235 (-59).

(** The doubles nearest to 1/5 and 1/10, written [0.20] and [0.10]. *)
Definition lit_0_20 : real := S754_finite false 7205759403792794 (-55).
Definition lit_0_10 : real := S754_finite false 7205759403792794 (-56).

Definition opp : real -> real := SFopp.

End Real.

(* ================================================================== *)
(** * SQL values and scalar operators *)
(* ================================================================== *)

Module Sql.

Inductive value : Type :=
| VNull
| VInt (z : Z)
| VReal (f : Real.real).

Definition min_int64 : Z := - 2 ^ 63.
Definition max_int64 : Z := 2 ^ 63 - 1.

Definition in_int64 (z : Z) : bool := (min_int64 <=? z) && (z <=? max_int64).

(** A nullable INTEGER column read as a value. *)
Definition col (c : option Z) : value :=
  match c with Some z => VInt z | None => VNull end.

(** A REAL result: NaN is stored as NULL. *)
Definition of_real (f : Real.real) : value :=
  if Real.is_nan f then VNull else VReal f.

Definition to_real (z : Z) : Real.real := Real.of_int z.

(** Arithmetic: NULL is absorbing; two integers give an integer unless the
    result leaves the 64-bit range, in which case both operands are taken
    as doubles; a REAL operand makes the operation a double operation. *)
Definition arith (iop : Z -> Z -> Z) (fop : Real.real -> Real.real -> Real.real)
           (a b : value) : value :=
  match a, b with
  | VNull, _ | _, VNull => VNull
  | VInt x, VInt y =>
      if in_int64 (iop x y) then VInt (iop x y)
      else of_real (fop (to_real x) (to_real y))
  | VInt x, VReal g => of_real (fop (to_real x) g)
  | VReal f, VInt y => of_real (fop f (to_real y))
  | VReal f, VReal g => of_real (fop f g)
  end.

Definition sql_add : value -> value -> value := arith Z.add Real.add.
Definition sql_sub : value -> value -> value := arith Z.sub Real.sub.
Definition sql_mul : value -> value -> value := arith Z.mul Real.mul.

(** Division: by zero yields NULL; integer division truncates. *)
Definition sql_div (a b : value) : value :=
  match a, b with
  | VNull, _ | _, VNull => VNull
  | VInt x, VInt y =>
      if y =? 0 then VNull
      else if in_int64 (Z.quot x y) then VInt (Z.quot x y)
      else of_real (Real.div (to_real x) (to_real y))
  | VInt x, VReal g =>
      if Real.is_zero g then VNull else of_real (Real.div (to_real x) g)
  | VReal f, VInt y =>
      if y =? 0 then VNull else of_real (Real.div f (to_real y))
  | VReal f, VReal g =>
      if Real.is_zero g then VNull else of_real (Real.div f g)
  end.

(** Numeric comparison; [None] when an operand is NULL. *)
Definition compare (a b : value) : option comparison :=
  match a, b with
  | VNull, _ | _, VNull => None
  | VInt x, VInt y => Some (x ?= y)
  | VInt x, VReal g => Real.compare_int x g
  | VReal f, VInt y => option_map CompOpp (Real.compare_int y f)
  | VReal f, VReal g => SFcompare f g
  end.

Definition of_bool (b : bool) : value := VInt (if b then 1 else 0).

Definition sql_gt (a b : value) : value :=
  match compare a b with
  | Some Gt => of_bool true
  | Some _ => of_bool false
  | None => VNull
  end.

Definition sql_lt (a b : value) : value :=
  match compare a b with
  | Some Lt => of_bool true
  | Some _ => of_bool false
  | None => VNull
  end.

Definition sql_ge (a b : value) : value :=
  match compare a b with
  | Some Lt => of_bool false
  | Some _ => of_bool true
  | None => VNull
  end.

Definition sql_le (a b : value) : value :=
  match compare a b with
  | Some Gt => of_bool false
  | Some _ => of_bool true
  | None => VNull
  end.

(** Three-valued truth of a value: [Some true], [Some false] or unknown. *)
Definition truth (v : value) : option bool :=
  match v with
  | VNull => None
  | VInt z => Some (negb (z =? 0))
  | VReal f => Some (negb (Real.is_zero f))
  end.

Definition sql_and (a b : value) : value :=
  match truth a, truth b with
  | Some false, _ | _, Some false => of_bool false
  | Some true, Some true => of_bool true
  | _, _ => VNull
  end.

(** [x BETWEEN lo AND hi] is [x >= lo AND x <= hi]. *)
Definition sql_between (x lo hi : value) : value :=
  sql_and (sql_ge x lo) (sql_le x hi).

(** [CASE WHEN c THEN a ELSE b END]: the THEN branch is taken only when
    the condition is true; false and unknown both fall to ELSE. *)
Definition sql_case (c a b : value) : value :=
  match truth c with
  | Some true => a
  | _ => b
  end.

(** [COALESCE(v1, ..., vn)]: the first argument that is not NULL. *)
Fixpoint coalesce (vs : list value) : value :=
  match vs with
  | [] => VNull
  | VNull :: vs' => coalesce vs'
  | v :: _ => v
  end.

(** [CAST(v AS INTEGER)]: a double is truncated toward zero and clamped
    to the 64-bit range. *)
Definition cast_integer (v : value) : value :=
  match v with
  | VNull => VNull
  | VInt z => VInt z
  | VReal (S754_infinity s) => VInt (if s then min_int64 else max_int64)
  | VReal f => VInt (Z.max min_int64 (Z.min max_int64 (Real.trunc f)))
  end.

(** [CAST(v AS REAL)]. *)
Definition cast_real (v : value) : value :=
  match v with
  | VNull => VNull
  | VInt z => VReal (to_real z)
  | VReal f => VReal f
  end.

(** ** Function calls *)

(** The functions the schema calls by name. *)
Inductive function : Type :=
| COALESCE
| LEAST.

(** A call either yields a value or fails the statement that holds it,
    "no such function: NAME". *)
Inductive evaluation : Type :=
| Value (v : value)
| NoSuchFunction (f : function).

(** What the engine finds under each name when it prepares a statement:
    its built-in functions and those the application has registered on the
    connection.  [COALESCE] is built in.  SQLite has no [LEAST] (its
    minimum of several values is the scalar [min]), and nothing in the
    sources registers one. *)
Definition lookup (f : function) : option (list value -> value) :=
  match f with
  | COALESCE => Some coalesce
  | LEAST => None
  end.

(** [NAME(args)] *)
Definition call (f : function) (args : list value) : evaluation :=
  match lookup f with
  | Some g => Value (g args)
  | None => NoSuchFunction f
  end.

(** Column affinity applied to the value of a generated column: a double
    stored in an INTEGER column becomes an integer when that loses nothing. *)
Definition affinity_integer (v : value) : value :=
  match v with
  | VReal f =>
      let z := Real.trunc f in
      if SFeqb (to_real z) f && (min_int64 <? z) && (z <? max_int64)
      then VInt z else VReal f
  | _ => v
  end.

Definition affinity_real (v : value) : value :=
  match v with
  | VInt z => VReal (to_real z)
  | _ => v
  end.

End Sql.

(* ================================================================== *)
(** * The [npy_data] table *)
(* ================================================================== *)

Module Npy.
Import Sql.

(** The stored columns, in schema order.  INTEGER columns hold an integer
    or NULL; NOT NULL is a constraint, checked on insertion.  The record
    covers the rows whose values are integers or NULL: the engine would
    also keep a value of another storage class (a REAL such as 0.75) bound
    to an INTEGER column. *)
Record row : Type := mkRow {
  id : option Z;                  (* INTEGER PRIMARY KEY *)
  item_id : option Z;
  timestamp : option Z;
  minute : option Z;
  hour : option Z;
  day : option Z;
  month : option Z;
  year : option Z;
  weekday : option Z;
  hour_timestamp : option Z;
  day_timestamp : option Z;
  week_timestamp : option Z;
  wiki_timestamp : option Z;
  wiki_price : option Z;
  wiki_volume : option Z;
  buy_price : option Z;
  buy_volume : option Z;
  sell_price : option Z;
  sell_volume : option Z;
  rt_avg_price : option Z;
  rt_min_price : option Z;
  rt_max_price : option Z;
  rt_count : option Z;
  volume_coefficient : option Real.real
}.

(** ** Generated columns *)

Section Generated.
Variable r : row.

Let wiki_price_v := col (wiki_price r).
Let wiki_volume_v := col (wiki_volume r).
Let buy_price_v := col (buy_price r).
Let buy_volume_v := col (buy_volume r).
Let sell_price_v := col (sell_price r).
Let sell_volume_v := col (sell_volume r).
Let rt_avg_price_v := col (rt_avg_price r).
Let rt_min_price_v := col (rt_min_price r).
Let rt_max_price_v := col (rt_max_price r).
Let rt_count_v := col (rt_count r).

(** [wiki_price * wiki_volume] *)
Definition wiki_total_value : value :=
  affinity_integer (sql_mul wiki_price_v wiki_volume_v).

(** [wiki_volume / 288] *)
Definition wiki_avg_volume : value :=
  affinity_integer (sql_div wiki_volume_v (VInt 288)).

(** [buy_price * buy_volume] *)
Definition buy_total_value : value :=
  affinity_integer (sql_mul buy_price_v buy_volume_v).

(** [sell_price * sell_volume] *)
Definition sell_total_value : value :=
  affinity_integer (sql_mul sell_price_v sell_volume_v).

(** [CASE WHEN buy_price > 0 AND sell_price > 0
          THEN (buy_price + sell_price) / 2
          ELSE COALESCE(buy_price, sell_price, 0) END] *)
Definition avg5m_price : value :=
  affinity_integer
    (sql_case
       (sql_and (sql_gt buy_price_v (VInt 0)) (sql_gt sell_price_v (VInt 0)))
       (sql_div (sql_add buy_price_v sell_price_v) (VInt 2))
       (coalesce [buy_price_v; sell_price_v; VInt 0])).

(** [buy_volume + sell_volume] *)
Definition avg5m_volume : value :=
  affinity_integer (sql_add buy_volume_v sell_volume_v).

(** [avg5m_price * avg5m_volume] *)
Definition avg5m_total_value : value :=
  affinity_integer (sql_mul avg5m_price avg5m_volume).

(** [CASE WHEN buy_price > 0 AND sell_price > 0
          THEN sell_price - buy_price - CAST(sell_price * 0.01 as INTEGER)
          ELSE 0 END] *)
Definition avg5m_margin : value :=
  affinity_integer
    (sql_case
       (sql_and (sql_gt buy_price_v (VInt 0)) (sql_gt sell_price_v (VInt 0)))
       (sql_sub (sql_sub sell_price_v buy_price_v)
          (cast_integer (sql_mul sell_price_v (VReal Real.lit_0_01))))
       (VInt 0)).

(** [CASE WHEN buy_price > 0 AND wiki_price > 0
          THEN CAST(sell_price - buy_price AS REAL) / wiki_price
          ELSE 0 END] *)
Definition price_ratio_sell_buy : value :=
  affinity_real
    (sql_case
       (sql_and (sql_gt buy_price_v (VInt 0)) (sql_gt wiki_price_v (VInt 0)))
       (sql_div (cast_real (sql_sub sell_price_v buy_price_v)) wiki_price_v)
       (VInt 0)).

(** [CASE WHEN wiki_price > 0
          THEN CAST(buy_price - wiki_price AS REAL) / wiki_price
          ELSE 0 END] *)
Definition price_ratio_buy_wiki : value :=
  affinity_real
    (sql_case
       (sql_gt wiki_price_v (VInt 0))
       (sql_div (cast_real (sql_sub buy_price_v wiki_price_v)) wiki_price_v)
       (VInt 0)).

(** [CASE WHEN wiki_price > 0
          THEN CAST(sell_price - wiki_price AS REAL) / wiki_price
          ELSE 0 END] *)
Definition price_ratio_sell_wiki : value :=
  affinity_real
    (sql_case
       (sql_gt wiki_price_v (VInt 0))
       (sql_div (cast_real (sql_sub sell_price_v wiki_price_v)) wiki_price_v)
       (VInt 0)).

(** [CASE WHEN rt_count > 0
          THEN rt_max_price - rt_min_price - CAST(rt_avg_price * 0.01 as INTEGER)
          ELSE 0 END] *)
Definition rt_margin : value :=
  affinity_integer
    (sql_case
       (sql_gt rt_count_v (VInt 0))
       (sql_sub (sql_sub rt_max_price_v rt_min_price_v)
          (cast_integer (sql_mul rt_avg_price_v (VReal Real.lit_0_01))))
       (VInt 0)).

End Generated.

(** The tax of a price: [LEAST(5000000, CAST(p * 0.01 as INTEGER))]. *)
Definition tax_of (p : value) : evaluation :=
  call LEAST [VInt 5000000; cast_integer (sql_mul p (VReal Real.lit_0_01))].

(** [LEAST(5000000, CAST(COALESCE(sell_price, wiki_price, 0) * 0.01 as INTEGER))] *)
Definition tax (r : row) : evaluation :=
  match call COALESCE [col (sell_price r); col (wiki_price r); VInt 0] with
  | Value p =>
      match tax_of p with
      | Value v => Value (affinity_integer v)
      | NoSuchFunction f => NoSuchFunction f
      end
  | NoSuchFunction f => NoSuchFunction f
  end.

(** A price column of a committed row: when present, a non-negative
    64-bit integer (the raw store rejects negative prices). *)
Definition price_ok (c : option Z) : Prop :=
  forall v : Z, c = Some v -> 0 <= v <= max_int64.

(** ** Constraints *)

Definition not_null (c : option Z) : bool :=
  match c with Some _ => true | None => false end.

(** The NOT NULL constraints of the table. *)
Definition not_null_ok (r : row) : bool :=
  not_null (item_id r) && not_null (timestamp r) &&
  not_null (minute r) && not_null (hour r) && not_null (day r) &&
  not_null (month r) && not_null (year r) && not_null (weekday r) &&
  not_null (hour_timestamp r) && not_null (day_timestamp r) &&
  not_null (week_timestamp r).

(** A CHECK constraint is violated only when its expression is false:
    an unknown (NULL) result passes. *)
Definition check_passes (v : value) : bool :=
  match truth v with
  | Some false => false
  | _ => true
  end.

(** [CHECK (minute BETWEEN 0 AND 59)] and its four siblings. *)
Definition check_ok (r : row) : bool :=
  check_passes (sql_between (col (minute r)) (VInt 0) (VInt 59)) &&
  check_passes (sql_between (col (hour r)) (VInt 0) (VInt 23)) &&
  check_passes (sql_between (col (day r)) (VInt 1) (VInt 31)) &&
  check_passes (sql_between (col (month r)) (VInt 1) (VInt 12)) &&
  check_passes (sql_between (col (weekday r)) (VInt 0) (VInt 6)).

(** ** The table *)

Definition table := list row.

Definition opt_eqb (a b : option Z) : bool :=
  match a, b with
  | Some x, Some y => x =? y
  | _, _ => false
  end.

(** Two rows collide on [UNIQUE (item_id, timestamp)]. *)
Definition same_key (a b : row) : bool :=
  opt_eqb (item_id a) (item_id b) && opt_eqb (timestamp a) (timestamp b).

(** Two rows collide on the primary key. *)
Definition same_id (a b : row) : bool := opt_eqb (id a) (id b).

Definition rowid (r : row) : Z :=
  match id r with Some i => i | None => 0 end.

(** The largest rowid in use, if any. *)
Fixpoint max_rowid (t : table) : option Z :=
  match t with
  | [] => None
  | r :: t' =>
      match max_rowid t' with
      | Some m => Some (Z.max (rowid r) m)
      | None => Some (rowid r)
      end
  end.

(** The rowid given to a row inserted without one: one more than the
    largest rowid in use, 1 in an empty table.  This is the engine's rule
    as long as the largest rowid in use is below 2^63 - 1; once that rowid
    is in use the engine draws unused rowids at random instead, which this
    function does not describe. *)
Definition next_rowid (t : table) : Z :=
  match max_rowid t with
  | Some m => m + 1
  | None => 1
  end.

Definition with_id (r : row) (i : Z) : row :=
  mkRow (Some i) (item_id r) (timestamp r) (minute r) (hour r) (day r)
    (month r) (year r) (weekday r) (hour_timestamp r) (day_timestamp r)
    (week_timestamp r) (wiki_timestamp r) (wiki_price r) (wiki_volume r)
    (buy_price r) (buy_volume r) (sell_price r) (sell_volume r)
    (rt_avg_price r) (rt_min_price r) (rt_max_price r) (rt_count r)
    (volume_coefficient r).

(** The row as it will be stored: a NULL primary key is replaced by the
    next rowid. *)
Definition assign_id (t : table) (r : row) : row :=
  match id r with
  | Some _ => r
  | None => with_id r (next_rowid t)
  end.

Inductive error : Type :=
| NotNullViolation
| CheckViolation
| UniqueViolation.

Inductive result (A : Type) : Type :=
| Ok (a : A)
| Err (e : error).
Arguments Ok {A} a.
Arguments Err {A} e.

(** [INSERT INTO npy_data ...]: the statement aborts, leaving the table
    as it was, when a constraint is violated. *)
Definition insert (t : table) (r : row) : result table :=
  let r' := assign_id t r in
  if negb (not_null_ok r') then Err NotNullViolation
  else if negb (check_ok r') then Err CheckViolation
  else if existsb (fun x => same_id x r' || same_key x r') t then Err UniqueViolation
  else Ok (t ++ [r']).

(** The table after a statement: an aborted statement leaves it as it was. *)
Definition after (t : table) (res : result table) : table :=
  match res with
  | Ok t' => t'
  | Err _ => t
  end.

(** The table after [INSERT INTO npy_data ...]. *)
Definition insert_into (t : table) (r : row) : table := after t (insert t r).

(** The tables built from the empty table by inserts. *)
Inductive populated : table -> Prop :=
| populated_empty : populated []
| populated_insert (t : table) (r : row) :
    populated t -> populated (insert_into t r).

(** The calendar ranges of the CHECK constraints, on non-NULL values. *)
Definition in_range (c : option Z) (lo hi : Z) : bool :=
  match c with
  | Some v => (lo <=? v) && (v <=? hi)
  | None => false
  end.

Definition calendar_ok (r : row) : bool :=
  in_range (minute r) 0 59 && in_range (hour r) 0 23 &&
  in_range (day r) 1 31 && in_range (month r) 1 12 &&
  in_range (weekday r) 0 6.

Definition all_calendar_ok (t : table) : Prop :=
  forall r, In r t -> calendar_ok r = true.

End Npy.

(* ================================================================== *)
(** * The updater's statements on the table *)
(* ================================================================== *)

Module Updater.
Import Sql Npy.

(** Modelled from the spec: the retention window R of the derived table,
    456 days, in seconds.  The updater that applies it is not among the
    sources; the README only records the timespan. *)
Definition retention_window : Z := 456 * 86400.

(** Modelled from the spec: the commit of one derived row by the update
    orchestrator (absent from the sources), an upsert on the table: the
    NOT NULL and CHECK constraints still abort the statement, while a row
    that collides on the primary key or on [UNIQUE (item_id, timestamp)]
    is deleted and the new row takes its place. *)
Definition upsert (t : table) (r : row) : result table :=
  let r' := assign_id t r in
  if negb (not_null_ok r') then Err NotNullViolation
  else if negb (check_ok r') then Err CheckViolation
  else Ok (filter (fun x => negb (same_id x r' || same_key x r')) t ++ [r']).

(** Modelled from the spec: retention deletion by the retention manager
    (absent from the sources), [DELETE FROM npy_data WHERE timestamp < c]
    with [c = now - R]: a row goes when the condition is true. *)
Definition expired (cutoff : Z) (r : row) : bool :=
  match truth (sql_lt (col (timestamp r)) (VInt cutoff)) with
  | Some true => true
  | _ => false
  end.

Definition delete_expired (now : Z) (t : table) : table :=
  filter (fun r => negb (expired (now - retention_window) r)) t.

(** Modelled from the spec: the commit of a batch of derived rows as one
    unit; the first failing row fails the whole batch. *)
Fixpoint upsert_all (t : table) (rs : list row) : result table :=
  match rs with
  | [] => Ok t
  | r :: rs' =>
      match upsert t r with
      | Ok t' => upsert_all t' rs'
      | Err e => Err e
      end
  end.

(** Modelled from the spec: one update cycle of the orchestrator (absent
    from the sources) at time [now]: the synthesized rows are committed,
    then the retention manager runs.  A failed commit fails the cycle. *)
Definition update_cycle (now : Z) (t : table) (rs : list row) : result table :=
  match upsert_all t rs with
  | Ok t' => Ok (delete_expired now t')
  | Err e => Err e
  end.

(** The statements that change the derived table. *)
Inductive statement : Type :=
| Insert (r : row)
| Upsert (r : row)
| DeleteExpired (now : Z)
| UpdateCycle (now : Z) (rs : list row).

Definition exec (t : table) (s : statement) : table :=
  match s with
  | Insert r => insert_into t r
  | Upsert r => after t (upsert t r)
  | DeleteExpired now => delete_expired now t
  | UpdateCycle now rs => after t (update_cycle now t rs)
  end.

(** The states of the table reachable from the empty table. *)
Inductive reachable : table -> Prop :=
| reach_empty : reachable []
| reach_exec (t : table) (s : statement) :
    reachable t -> reachable (exec t s).

(** The rows stored for one (item_id, anchor). *)
Definition has_key (i a : Z) (r : row) : bool :=
  opt_eqb (item_id r) (Some i) && opt_eqb (timestamp r) (Some a).

Definition rows_at (t : table) (i a : Z) : list row :=
  filter (has_key i a) t.

Definition unique_keys (t : table) : Prop :=
  forall i a : Z, (length (rows_at t i a) <= 1)%nat.

End Updater.

(* ================================================================== *)
(** * The derived metrics as the specification words them *)
(* ================================================================== *)

Module Spec.

(** Tax(price) = min(tax_cap, floor(price * tax_rate)), cap 5,000,000 and
    rate 0.01. *)
Definition tax (price : Z) : Z := Z.min 5000000 (price / 100).

(** Combined interval price: the floored average when both are present,
    else whichever is present, else zero. *)
Definition combined_price (buy sell : option Z) : Z :=
  match buy, sell with
  | Some b, Some s => (b + s) / 2
  | Some b, None => b
  | None, Some s => s
  | None, None => 0
  end.

(** Combined interval volume: the sum, an absent volume counting as zero. *)
Definition combined_volume (buy sell : option Z) : Z :=
  match buy, sell with
  | Some b, Some s => b + s
  | Some b, None => b
  | None, Some s => s
  | None, None => 0
  end.

(** Trade margin: sell - buy - tax(sell) when both are present, else zero. *)
Definition trade_margin (buy sell : option Z) : Z :=
  match buy, sell with
  | Some b, Some s => s - b - tax s
  | _, _ => 0
  end.

(** A relative gap (x - y) / reference: defined when both operands and
    the reference are present and the reference is not zero, else zero. *)
Definition gap (x y reference : option Z) : Real.real :=
  match x, y, reference with
  | Some a, Some b, Some w =>
      if w =? 0 then Real.zero
      else Real.div (Real.of_int (a - b)) (Real.of_int w)
  | _, _, _ => Real.zero
  end.

(** Realtime spread margin: max - min - tax(average) when the tick count
    is positive, else zero. *)
Definition spread_margin (count lo hi average : option Z) : Z :=
  match count, lo, hi, average with
  | Some n, Some l, Some h, Some a => if 0 <? n then h - l - tax a else 0
  | _, _, _, _ => 0
  end.

End Spec.

(* ================================================================== *)
(** * Sample rows *)
(* ================================================================== *)

Module Examples.
Import Npy.

(** A derived row of item 2 anchored at 1700000100 (2023-11-14 22:15:00
    UTC, a Tuesday), with the given snapshot price, interval prices and
    volumes, and tick statistics. *)
Definition derived (wiki buy buy_vol sell sell_vol : option Z)
           (count lo hi average : option Z) : row :=
  {| id := None; item_id := Some 2; timestamp := Some 1700000100;
     minute := Some 15; hour := Some 22; day := Some 14; month := Some 11;
     year := Some 2023; weekday := Some 1;
     hour_timestamp := Some 472222; day_timestamp := Some 19675;
     week_timestamp := Some 2810;
     wiki_timestamp := option_map (fun _ => 1699920000) wiki;
     wiki_price := wiki; wiki_volume := option_map (fun _ => 28800) wiki;
     buy_price := buy; buy_volume := buy_vol;
     sell_price := sell; sell_volume := sell_vol;
     rt_avg_price := average; rt_min_price := lo; rt_max_price := hi;
     rt_count := count;
     volume_coefficient := None |}.

(** Only interval prices. *)
Definition interval (buy sell : option Z) : row :=
  derived None buy (option_map (fun _ => 10) buy)
          sell (option_map (fun _ => 10) sell) (Some 0) None None None.

(** Snapshot price and interval prices. *)
Definition priced (wiki buy sell : option Z) : row :=
  derived wiki buy (option_map (fun _ => 10) buy)
          sell (option_map (fun _ => 10) sell) (Some 0) None None None.

(** Only interval volumes on top of prices. *)
Definition volumes (buy_vol sell_vol : option Z) : row :=
  derived None (option_map (fun _ => 90) buy_vol) buy_vol
          (option_map (fun _ => 110) sell_vol) sell_vol (Some 0) None None None.

(** Only tick statistics. *)
Definition ticks (count lo hi average : option Z) : row :=
  derived None None None None None count lo hi average.

(** The same row anchored elsewhere, or with another minute. *)
Definition at_anchor (r : row) (a : Z) : row :=
  mkRow (id r) (item_id r) (Some a) (minute r) (hour r) (day r)
    (month r) (year r) (weekday r) (hour_timestamp r) (day_timestamp r)
    (week_timestamp r) (wiki_timestamp r) (wiki_price r) (wiki_volume r)
    (buy_price r) (buy_volume r) (sell_price r) (sell_volume r)
    (rt_avg_price r) (rt_min_price r) (rt_max_price r) (rt_count r)
    (volume_coefficient r).

Definition with_minute (r : row) (m : option Z) : row :=
  mkRow (id r) (item_id r) (timestamp r) m (hour r) (day r)
    (month r) (year r) (weekday r) (hour_timestamp r) (day_timestamp r)
    (week_timestamp r) (wiki_timestamp r) (wiki_price r) (wiki_volume r)
    (buy_price r) (buy_volume r) (sell_price r) (sell_volume r)
    (rt_avg_price r) (rt_min_price r) (rt_max_price r) (rt_count r)
    (volume_coefficient r).

(** Two syntheses of the same bucket, the second with a later sell price. *)
Definition first_synthesis : row := interval (Some 90) None.
Definition second_synthesis : row := interval (Some 90) (Some 110).

(** A bucket older than the retention window at time 1700000100:
    457 days before. *)
Definition stale_synthesis : row :=
  at_anchor first_synthesis (1700000100 - 457 * 86400).

End Examples.

(** The sign bit of a double (of a NaN: none). *)
Definition sign_bit (f : Real.real) : bool :=
  match f with
  | S754_zero s | S754_infinity s | S754_finite s _ _ => s
  | S754_nan => false
  end.

(* ================================================================== *)
(** * The views over [npy_data] *)
(* ================================================================== *)

Module Views.
Import Sql Npy.

(** ** Aggregate functions *)

Inductive query_error : Type :=
| IntegerOverflow.

Inductive query_result (A : Type) : Type :=
| Rows (a : A)
| Fails (e : query_error).
Arguments Rows {A} a.
Arguments Fails {A} e.

Definition is_null (v : value) : bool :=
  match v with VNull => true | _ => false end.

(** The inputs an aggregate looks at: NULL is skipped. *)
Definition non_null (vs : list value) : list value :=
  filter (fun v => negb (is_null v)) vs.

Definition as_real (v : value) : Real.real :=
  match v with
  | VInt z => to_real z
  | VReal f => f
  | VNull => Real.zero
  end.

(** [total(X)]: the sum of the non-NULL inputs as a double, added in the
    order the rows are visited. *)
Definition agg_total (vs : list value) : Real.real :=
  fold_left (fun acc v => Real.add acc (as_real v)) (non_null vs) Real.zero.

(** [avg(X)] is [total(X) / count(X)]: always a REAL when there is a
    non-NULL input, NULL when there is none. *)
Definition agg_avg (vs : list value) : value :=
  match non_null vs with
  | [] => VNull
  | xs => of_real (Real.div (agg_total vs) (to_real (Z.of_nat (length xs))))
  end.

(** [sum(X)] over an INTEGER column: NULL when every input is NULL, the
    integer sum otherwise; the query fails with "integer overflow" when
    the running sum leaves the 64-bit range. *)
Fixpoint sum_from (acc : option Z) (xs : list (option Z)) : query_result (option Z) :=
  match xs with
  | [] => Rows acc
  | None :: xs' => sum_from acc xs'
  | Some x :: xs' =>
      let s := match acc with Some a => a + x | None => x end in
      if in_int64 s then sum_from (Some s) xs' else Fails IntegerOverflow
  end.

Definition agg_sum (xs : list (option Z)) : query_result value :=
  match sum_from None xs with
  | Rows acc => Rows (col acc)
  | Fails e => Fails e
  end.

(** The inputs of an aggregate over an INTEGER column of 64-bit values. *)
Definition int_inputs (vs : list value) : Prop :=
  forall v, In v vs ->
            v = VNull \/ exists z, v = VInt z /\ min_int64 <= z <= max_int64.

(** The stored interval prices of a table are 64-bit integers. *)
Definition int64_prices (t : table) : Prop :=
  forall r v, In r t -> buy_price r = Some v \/ sell_price r = Some v ->
              min_int64 <= v <= max_int64.

(** [count( * )]: the number of rows of the group. *)
Definition agg_count (rows : list row) : Z := Z.of_nat (length rows).

(** ** GROUP BY *)

Section Grouping.
Variable K : Type.
Variable K_eq_dec : forall a b : K, {a = b} + {a <> b}.
Variable key : row -> K.

(** The distinct keys of the table (two NULLs are the same key); the order
    of the groups is not fixed by the query. *)
Definition group_keys (t : table) : list K := nodup K_eq_dec (map key t).

Definition in_group (k : K) (r : row) : bool :=
  if K_eq_dec (key r) k then true else false.

Definition group (t : table) (k : K) : list row := filter (in_group k) t.

(** The number of rows of the groups of a list of keys. *)
Definition group_sizes (t : table) (ks : list K) : nat :=
  fold_right (fun k acc => (length (group t k) + acc)%nat) 0%nat ks.
End Grouping.

Definition opt_Z_eq_dec (a b : option Z) : {a = b} + {a <> b}.
Proof. decide equality. apply Z.eq_dec. Defined.

Definition opt_string_eq_dec (a b : option String.string) : {a = b} + {a <> b}.
Proof. decide equality. apply String.string_dec. Defined.

(** ** [v_hourly_patterns] *)

Record hourly_pattern : Type := mkHourly {
  hp_item_id : option Z;
  hp_hour : option Z;
  avg_buy_price : value;
  avg_sell_price : value;
  hp_avg_margin : value;
  avg_volume_coef : value
}.

Definition hourly_key (r : row) : option Z * option Z := (item_id r, hour r).

Definition hourly_key_eq_dec (a b : option Z * option Z) : {a = b} + {a <> b}.
Proof. decide equality; apply opt_Z_eq_dec. Defined.

Definition real_col (c : option Real.real) : value :=
  match c with Some f => VReal f | None => VNull end.

(** [SELECT item_id, hour, avg(buy_price), avg(sell_price),
            avg(avg5m_margin), avg(volume_coefficient)
     FROM npy_data GROUP BY item_id, hour] *)
Definition v_hourly_patterns (t : table) : list hourly_pattern :=
  map (fun k =>
         let g := group _ hourly_key_eq_dec hourly_key t k in
         {| hp_item_id := fst k;
            hp_hour := snd k;
            avg_buy_price := agg_avg (map (fun r => col (buy_price r)) g);
            avg_sell_price := agg_avg (map (fun r => col (sell_price r)) g);
            hp_avg_margin := agg_avg (map avg5m_margin g);
            avg_volume_coef := agg_avg (map (fun r => real_col (volume_coefficient r)) g) |})
      (group_keys _ hourly_key_eq_dec hourly_key t).

(** ** [v_daily_price_summary] *)

Record daily_summary : Type := mkDaily {
  ds_item_id : option Z;
  trade_date : option String.string;
  avg_wiki_price : value;
  avg_5m_price : value;
  total_volume : value;
  ds_avg_margin : value;
  data_points : Z
}.

Fixpoint collect {A B : Type} (f : A -> query_result B) (l : list A) : query_result (list B) :=
  match l with
  | [] => Rows []
  | a :: l' =>
      match f a with
      | Fails e => Fails e
      | Rows b =>
          match collect f l' with
          | Fails e => Fails e
          | Rows bs => Rows (b :: bs)
          end
      end
  end.

Section Daily.
(** [date(X, 'unixepoch')] of the engine: the calendar date of a Unix time
    as text, NULL outside the supported years. *)
Variable date_unixepoch : Z -> option String.string.

Definition daily_key (r : row) : option Z * option String.string :=
  (item_id r,
   match timestamp r with Some ts => date_unixepoch ts | None => None end).

Definition daily_key_eq_dec (a b : option Z * option String.string) :
  {a = b} + {a <> b}.
Proof. decide equality; [apply opt_string_eq_dec | apply opt_Z_eq_dec]. Defined.

Definition daily_row (t : table) (k : option Z * option String.string) :
  query_result daily_summary :=
  let g := group _ daily_key_eq_dec daily_key t k in
  match agg_sum (map wiki_volume g) with
  | Fails e => Fails e
  | Rows total =>
      Rows {| ds_item_id := fst k;
              trade_date := snd k;
              avg_wiki_price := agg_avg (map (fun r => col (wiki_price r)) g);
              avg_5m_price := agg_avg (map avg5m_price g);
              total_volume := total;
              ds_avg_margin := agg_avg (map avg5m_margin g);
              data_points := agg_count g |}
  end.

(** [SELECT item_id, date(timestamp, 'unixepoch') as trade_date,
            avg(wiki_price), avg(avg5m_price), sum(wiki_volume),
            avg(avg5m_margin), count( * )
     FROM npy_data GROUP BY item_id, trade_date] *)
Definition v_daily_price_summary (t : table) : query_result (list daily_summary) :=
  collect (daily_row t) (group_keys _ daily_key_eq_dec daily_key t).
End Daily.

(** The sum of the present values of a column. *)
Definition present_sum (xs : list (option Z)) : Z :=
  fold_right (fun x acc => match x with Some v => v + acc | None => acc end) 0 xs.

Definition sum_points (rows : list daily_summary) : Z :=
  fold_right (fun p acc => data_points p + acc) 0 rows.

End Views.

(* ================================================================== *)
(** * The time utilities of the notebook *)
(* ================================================================== *)

Module UtilTime.
Import String.

Inductive exn : Type :=
| ValueError
| TimestampError.

Inductive outcome (A : Type) : Type :=
| Return (a : A)
| Raise (e : exn).
Arguments Return {A} a.
Arguments Raise {A} e.

(** [datetime.time(hour, minute, second)]: the constructor raises
    [ValueError] for a field out of range. *)
Record time : Type := mkTime { t_hour : Z; t_minute : Z; t_second : Z }.

Definition datetime_time (h m s : Z) : outcome time :=
  if negb ((0 <=? h) && (h <? 24)) then Raise ValueError
  else if negb ((0 <=? m) && (m <? 60)) then Raise ValueError
  else if negb ((0 <=? s) && (s <? 60)) then Raise ValueError
  else Return (mkTime h m s).

Section LocUnixDt3.
(** [datetime.date.fromtimestamp], the local calendar date of a Unix time,
    is the library's; it raises outside the platform's range. *)
Variable date : Type.
Variable date_fromtimestamp : Z -> outcome date.

(** [datetime.datetime.combine(date=datetime.date.fromtimestamp(unix),
        time=datetime.time(unix%86400//3600, unix%3600//60, unix%60))],
    on an integer [unix]; Python's [%] and [//] on integers are the floor
    operations [Z.modulo] and [Z.div]. *)
Definition loc_unix_dt_3 (unix : Z) : outcome (date * time) :=
  match date_fromtimestamp unix with
  | Raise e => Raise e
  | Return d =>
      match datetime_time (unix mod 86400 / 3600) (unix mod 3600 / 60)
                          (unix mod 60) with
      | Raise e => Raise e
      | Return t => Return (d, t)
      end
  end.
End LocUnixDt3.

(** [str(z)]: the decimal digits of an integer.  It names a day by its
    number where an example needs a date function. *)
Definition str (z : Z) : String.string :=
  DecimalString.NilZero.string_of_int (Z.to_int z).

End UtilTime.

(* ================================================================== *)
(** * Primary keys; more sample rows and tables *)
(* ================================================================== *)

Module Samples.
Import Npy.

(** The primary keys of a table: all present and pairwise distinct. *)
Definition ids_ok (t : table) : Prop :=
  NoDup (map rowid t) /\ forall r, In r t -> id r = Some (rowid r).

(** The bucket after [Examples.second_synthesis], five minutes later. *)
Definition next_bucket : row :=
  Examples.with_minute
    (Examples.at_anchor (Examples.interval (Some 95) (Some 105)) 1700000400)
    (Some 20).

Definition two_buckets : table :=
  insert_into (insert_into [] Examples.second_synthesis) next_bucket.

(** A row with its full set of interval and snapshot data. *)
Definition full_row : row :=
  Examples.derived (Some 100) (Some 90) (Some 40) (Some 110) (Some 60)
    (Some 2) (Some 95) (Some 105) (Some 100).

(** Two buckets of one day with a snapshot volume of 28,800 each, and a
    bucket of the next day without a snapshot. *)
Definition snapshot_days : table :=
  insert_into
    (insert_into (insert_into [] full_row)
       (Examples.at_anchor full_row 1700000400))
    (Examples.at_anchor Examples.first_synthesis (1700000100 + 86400)).

(** A bucket traded at high prices. *)
Definition dear_row : row :=
  Examples.derived (Some 700000000) (Some 690000000) (Some 1)
    (Some 710000000) (Some 1) (Some 3) (Some 690000000) (Some 710000000)
    (Some 700000000).

End Samples.

(* ================================================================== *)
(** * Facts about binary64 rounding *)
(* ================================================================== *)

Module RealFacts.
Import Real.

Lemma digits2_pos_bounds (p : positive) :
  2 ^ (Zpos (digits2_pos p) - 1) <= Zpos p < 2 ^ Zpos (digits2_pos p).
Proof.
  induction p as [p IH | p IH |]; cbn [digits2_pos].
  - rewrite Pos2Z.inj_succ.
    replace (Z.succ (Zpos (digits2_pos p)) - 1) with (Z.succ (Zpos (digits2_pos p) - 1)) by lia.
    rewrite !Z.pow_succ_r by lia. lia.
  - rewrite Pos2Z.inj_succ.
    replace (Z.succ (Zpos (digits2_pos p)) - 1) with (Z.succ (Zpos (digits2_pos p) - 1)) by lia.
    rewrite !Z.pow_succ_r by lia. lia.
  - cbn. lia.
Qed.

Lemma digits2_pos_unique (p : positive) (k : Z) :
  2 ^ (k - 1) <= Zpos p < 2 ^ k -> Zpos (digits2_pos p) = k.
Proof.
  intros [Hlo Hhi].
  pose proof (digits2_pos_bounds p) as [Blo Bhi].
  assert (0 < k).
  { destruct (Z_lt_le_dec 0 k) as [|Hk]; [assumption|].
    exfalso. destruct (Z.eq_dec k 0) as [->|]; [cbn in Hhi; lia|].
    rewrite Z.pow_neg_r in Hhi by lia. lia. }
  destruct (Z_lt_le_dec (Zpos (digits2_pos p)) k) as [Hlt|Hge].
  - assert (2 ^ Zpos (digits2_pos p) <= 2 ^ (k - 1)) by (apply Z.pow_le_mono_r; lia). lia.
  - destruct (Z_lt_le_dec k (Zpos (digits2_pos p))) as [Hlt|Hle]; [|lia].
    assert (2 ^ k <= 2 ^ (Zpos (digits2_pos p) - 1)) by (apply Z.pow_le_mono_r; lia). lia.
Qed.

Lemma shr_1_m (mrs : shr_record) :
  0 <= shr_m mrs -> shr_m (shr_1 mrs) = shr_m mrs / 2.
Proof.
  destruct mrs as [m r s]; cbn [shr_m]. intros Hm.
  destruct m as [|p|p]; [reflexivity| |lia].
  destruct p as [p|p|]; cbn [shr_1 shr_m].
  - rewrite Pos2Z.inj_xI. apply Z.div_unique with (r := 1); lia.
  - rewrite Pos2Z.inj_xO. apply Z.div_unique with (r := 0); lia.
  - reflexivity.
Qed.

Lemma iter_shr_1_m (n : positive) : forall mrs : shr_record,
  0 <= shr_m mrs -> shr_m (iter_pos shr_1 n mrs) = shr_m mrs / 2 ^ Zpos n.
Proof.
  induction n as [n IH | n IH |]; intros mrs Hm; cbn [iter_pos].
  - assert (H1 : 0 <= shr_m (shr_1 mrs)) by (rewrite shr_1_m by assumption; apply Z.div_pos; lia).
    assert (H2 : 0 <= shr_m (iter_pos shr_1 n (shr_1 mrs)))
      by (rewrite IH by assumption; apply Z.div_pos; lia).
    rewrite IH, IH, shr_1_m by assumption.
    rewrite !Z.div_div by lia.
    f_equal. change 2 with (2 ^ 1) at 1. rewrite <- !Z.pow_add_r by lia. f_equal. lia.
  - assert (H2 : 0 <= shr_m (iter_pos shr_1 n mrs))
      by (rewrite IH by assumption; apply Z.div_pos; lia).
    rewrite IH, IH by assumption.
    rewrite !Z.div_div by lia.
    f_equal. rewrite <- Z.pow_add_r by lia. f_equal. lia.
  - rewrite shr_1_m by assumption. reflexivity.
Qed.

Lemma fexp_normal (x : Z) : -1074 <= x - 53 -> fexp prec emax x = x - 53.
Proof. unfold fexp, emin, prec, emax. lia. Qed.

Lemma round_nearest_even_cases (q : Z) (l : location) :
  round_nearest_even q l = q \/ round_nearest_even q l = q + 1.
Proof.
  destruct l as [|[| |]]; cbn [round_nearest_even]; auto.
  destruct (Z.even q); auto.
Qed.

Lemma shr_fexp_shift (M : positive) (e : Z) :
  let n := Zpos (digits2_pos M) - 53 in
  0 < n -> -1074 <= e + n ->
  exists mrs, shr_fexp prec emax (Zpos M) e loc_Exact = (mrs, e + n)
              /\ shr_m mrs = Zpos M / 2 ^ n.
Proof.
  intros n Hn He. unfold shr_fexp. cbn [Zdigits2 shr_record_of_loc].
  rewrite fexp_normal by (fold n; subst n; lia).
  replace (Zpos (digits2_pos M) + e - 53 - e) with n by (subst n; lia).
  destruct n as [|k|k] eqn:En; try lia.
  cbn [shr]. eexists. split; [reflexivity|].
  rewrite iter_shr_1_m by (cbn; lia). reflexivity.
Qed.

Lemma shr_fexp_noshift (q : positive) (e : Z) :
  Zpos (digits2_pos q) = 53 -> -1074 <= e ->
  shr_fexp prec emax (Zpos q) e loc_Exact
  = ({| shr_m := Zpos q; shr_r := false; shr_s := false |}, e).
Proof.
  intros Hd He. unfold shr_fexp. cbn [Zdigits2 shr_record_of_loc].
  rewrite fexp_normal by lia. rewrite Hd.
  replace (53 + e - 53 - e) with 0 by lia. reflexivity.
Qed.

Lemma round_aux_finite (sx : bool) (M : positive) (e : Z) :
  let n := Zpos (digits2_pos M) - 53 in
  0 < n -> -1074 <= e + n -> e + n < 971 ->
  exists (m' : positive) (e' : Z),
    binary_round_aux prec emax sx (Zpos M) e loc_Exact = S754_finite sx m' e'
    /\ 2 ^ 52 <= Zpos m' < 2 ^ 53
    /\ e + n <= e' <= e + n + 1
    /\ (Zpos m' * 2 ^ (e' - (e + n)) = Zpos M / 2 ^ n
        \/ Zpos m' * 2 ^ (e' - (e + n)) = Zpos M / 2 ^ n + 1).
Proof.
  intros n Hn Hlo Hhi.
  destruct (shr_fexp_shift M e Hn Hlo) as (mrs & E1 & Hq). fold n in E1, Hq.
  unfold binary_round_aux. rewrite E1.
  set (q := Zpos M / 2 ^ n) in *.
  assert (Hqb : 2 ^ 52 <= q < 2 ^ 53).
  { pose proof (digits2_pos_bounds M) as [Blo Bhi].
    replace (Zpos (digits2_pos M)) with (53 + n) in Bhi by (subst n; lia).
    replace (Zpos (digits2_pos M) - 1) with (52 + n) in Blo by (subst n; lia).
    rewrite Z.pow_add_r in Blo, Bhi by lia.
    assert (0 < 2 ^ n) by (apply Z.pow_pos_nonneg; lia).
    subst q. split.
    - apply Z.div_le_lower_bound; lia.
    - apply Z.div_lt_upper_bound; lia. }
  rewrite Hq.
  destruct (round_nearest_even_cases q (loc_of_shr_record mrs)) as [E|E]; rewrite E.
  - (* no carry *)
    destruct q as [|qp|qp] eqn:Eq; try (cbn in Hqb; lia).
    rewrite shr_fexp_noshift by (try apply digits2_pos_unique; change (53 - 1) with 52; lia).
    cbn [shr_m].
    replace (e + n <=? emax - prec) with true by (unfold emax, prec; symmetry; apply Z.leb_le; lia).
    exists qp, (e + n). repeat split; try lia.
    left. rewrite Z.sub_diag. lia.
  - destruct (Z.eq_dec (q + 1) (2 ^ 53)) as [Hc|Hc].
    + (* carry into the next binade *)
      rewrite Hc. change (2 ^ 53) with (Zpos (xO 4503599627370496)).
      unfold shr_fexp. cbn [Zdigits2 shr_record_of_loc].
      assert (Hd : Zpos (digits2_pos (xO 4503599627370496)) = 54) by reflexivity.
      rewrite Hd, fexp_normal by lia.
      replace (54 + (e + n) - 53 - (e + n)) with 1 by lia.
      cbn [shr iter_pos shr_1 shr_m].
      replace (e + n + 1 <=? emax - prec) with true by (unfold emax, prec; symmetry; apply Z.leb_le; lia).
      exists 4503599627370496%positive, (e + n + 1). split; [reflexivity|].
      replace (e + n + 1 - (e + n)) with 1 by lia.
      repeat split; try lia.
    + assert (Hq1 : 2 ^ 52 <= q + 1 < 2 ^ 53) by lia.
      destruct (q + 1) as [|qp|qp] eqn:Eq; try (cbn in Hq1; lia).
      rewrite shr_fexp_noshift by (try apply digits2_pos_unique; change (53 - 1) with 52; lia).
      cbn [shr_m].
      replace (e + n <=? emax - prec) with true by (unfold emax, prec; symmetry; apply Z.leb_le; lia).
      exists qp, (e + n). repeat split; try lia.
      right. rewrite Z.sub_diag. lia.
Qed.

Lemma iter_xO_pos (p k : positive) : Zpos (Pos.iter xO p k) = Zpos p * 2 ^ Zpos k.
Proof.
  induction k as [|k IH] using Pos.peano_ind.
  - cbn [Pos.iter]. lia.
  - rewrite Pos.iter_succ, Pos2Z.inj_xO, IH, Pos2Z.inj_succ, Z.pow_succ_r by lia. lia.
Qed.

Lemma round_aux_exact (sx : bool) (m : positive) (e : Z) :
  Zpos (digits2_pos m) = 53 -> -1074 <= e <= 971 ->
  binary_round_aux prec emax sx (Zpos m) e loc_Exact = S754_finite sx m e.
Proof.
  intros Hd He. unfold binary_round_aux.
  rewrite shr_fexp_noshift by lia. cbn [shr_m loc_of_shr_record round_nearest_even].
  rewrite shr_fexp_noshift by lia. cbn [shr_m].
  replace (e <=? emax - prec) with true by (unfold emax, prec; symmetry; apply Z.leb_le; lia).
  reflexivity.
Qed.

(** Integers below 2^53 are doubles: the mantissa is the integer shifted
    left to 53 digits. *)
Lemma binary_round_small (sx : bool) (p : positive) :
  Zpos p < 2 ^ 53 ->
  let d := Zpos (digits2_pos p) in
  exists m : positive,
    binary_round prec emax sx p 0 = S754_finite sx m (d - 53)
    /\ Zpos m = Zpos p * 2 ^ (53 - d)
    /\ Zpos (digits2_pos m) = 53.
Proof.
  intros Hp d.
  pose proof (digits2_pos_bounds p) as [Blo Bhi]. fold d in Blo, Bhi.
  assert (Hd : 1 <= d <= 53).
  { split; [subst d; lia|].
    destruct (Z_lt_le_dec 53 d) as [H|H]; [|assumption].
    assert (2 ^ 53 <= 2 ^ (d - 1)) by (apply Z.pow_le_mono_r; lia). lia. }
  unfold binary_round, shl_align.
  rewrite Z.add_0_r, fexp_normal by (fold d; lia). fold d.
  rewrite Z.sub_0_r.
  destruct (d - 53) as [|k|k] eqn:Ek; try lia.
  - exists p. assert (d = 53) by lia.
    rewrite round_aux_exact by (fold d; lia).
    replace (53 - d) with 0 by lia. repeat split; [lia | fold d; lia].
  - assert (Hk : Zpos k = 53 - d) by lia.
    assert (Hm : Zpos (Pos.iter xO p k) = Zpos p * 2 ^ (53 - d))
      by (rewrite iter_xO_pos, Hk; reflexivity).
    assert (Hdm : Zpos (digits2_pos (Pos.iter xO p k)) = 53).
    { apply digits2_pos_unique. rewrite Hm.
      assert (Hs : 0 < 2 ^ (53 - d)) by (apply Z.pow_pos_nonneg; lia).
      assert (E52 : 2 ^ (53 - 1) = 2 ^ (d - 1) * 2 ^ (53 - d))
        by (rewrite <- Z.pow_add_r by lia; f_equal; lia).
      assert (E53 : 2 ^ 53 = 2 ^ d * 2 ^ (53 - d))
        by (rewrite <- Z.pow_add_r by lia; f_equal; lia).
      rewrite E52, E53. split.
      - apply Z.mul_le_mono_nonneg_r; lia.
      - apply Z.mul_lt_mono_pos_r; lia. }
    exists (Pos.iter xO p k).
    rewrite round_aux_exact by lia. auto.
Qed.

(** Larger integers are rounded to a normalised double. *)
Lemma binary_round_large (sx : bool) (p : positive) :
  2 ^ 53 <= Zpos p <= 2 ^ 63 ->
  exists (m : positive) (e : Z),
    binary_round prec emax sx p 0 = S754_finite sx m e
    /\ 2 ^ 52 <= Zpos m < 2 ^ 53 /\ 1 <= e <= 12.
Proof.
  intros Hp.
  pose proof (digits2_pos_bounds p) as [Blo Bhi].
  set (d := Zpos (digits2_pos p)) in *.
  assert (Hd : 54 <= d <= 64).
  { split.
    - destruct (Z_lt_le_dec d 54) as [H|H]; [|assumption].
      assert (2 ^ d <= 2 ^ 53) by (apply Z.pow_le_mono_r; lia). lia.
    - destruct (Z_lt_le_dec 64 d) as [H|H]; [|assumption].
      assert (2 ^ 64 <= 2 ^ (d - 1)) by (apply Z.pow_le_mono_r; lia). lia. }
  unfold binary_round, shl_align.
  rewrite Z.add_0_r, fexp_normal by (fold d; lia). fold d.
  rewrite Z.sub_0_r.
  destruct (d - 53) as [|k|k] eqn:Ek; try lia.
  destruct (round_aux_finite sx p 0) as (m & e & E & Hm & He & _); fold d; try lia.
  exists m, e. rewrite E. repeat split; lia.
Qed.

Lemma of_int_small (p : positive) :
  Zpos p < 2 ^ 53 ->
  let d := Zpos (digits2_pos p) in
  exists m : positive,
    of_int (Zpos p) = S754_finite false m (d - 53)
    /\ Zpos m = Zpos p * 2 ^ (53 - d)
    /\ Zpos (digits2_pos m) = 53.
Proof. exact (binary_round_small false p). Qed.

Lemma of_int_large (p : positive) :
  2 ^ 53 <= Zpos p <= 2 ^ 63 ->
  exists (m : positive) (e : Z),
    of_int (Zpos p) = S754_finite false m e
    /\ 2 ^ 52 <= Zpos m < 2 ^ 53 /\ 1 <= e <= 12.
Proof. exact (binary_round_large false p). Qed.

(** Every non-zero integer of at most 64 bits converts to a finite double. *)
Lemma of_int_finite (z : Z) :
  z <> 0 -> - 2 ^ 63 <= z <= 2 ^ 63 ->
  exists (s : bool) (m : positive) (e : Z), of_int z = S754_finite s m e.
Proof.
  intros Hz Hb. destruct z as [|p|p]; [contradiction| |];
    unfold of_int, binary_normalize.
  - destruct (Z_lt_le_dec (Zpos p) (2 ^ 53)) as [Hlt|Hge].
    + destruct (binary_round_small false p Hlt) as (m & E & _). eauto.
    + destruct (binary_round_large false p) as (m & e & E & _); [lia|]. eauto.
  - destruct (Z_lt_le_dec (Zpos p) (2 ^ 53)) as [Hlt|Hge].
    + destruct (binary_round_small true p Hlt) as (m & E & _). eauto.
    + destruct (binary_round_large true p) as (m & e & E & _); [lia|]. eauto.
Qed.

(** Rounding a non-negative mantissa never produces a NaN. *)
Lemma shr_m_nonneg (mrs : shr_record) (e n : Z) :
  0 <= shr_m mrs -> 0 <= shr_m (fst (shr mrs e n)).
Proof.
  intros Hm. destruct n as [|k|k]; cbn [shr fst]; try assumption.
  rewrite iter_shr_1_m by assumption. apply Z.div_pos; lia.
Qed.

Lemma shr_fexp_nonneg (m e : Z) (l : location) :
  0 <= m -> 0 <= shr_m (fst (shr_fexp prec emax m e l)).
Proof.
  intros Hm. unfold shr_fexp. apply shr_m_nonneg.
  destruct l as [|[| |]]; exact Hm.
Qed.

Lemma round_aux_not_nan (sx : bool) (mx ex : Z) (lx : location) :
  0 <= mx -> is_nan (binary_round_aux prec emax sx mx ex lx) = false.
Proof.
  intros Hm. unfold binary_round_aux.
  pose proof (shr_fexp_nonneg mx ex lx Hm) as H1.
  destruct (shr_fexp prec emax mx ex lx) as [mrs1 e1]. cbn [fst] in H1.
  set (q := round_nearest_even (shr_m mrs1) (loc_of_shr_record mrs1)).
  assert (Hq : 0 <= q)
    by (subst q; destruct (round_nearest_even_cases (shr_m mrs1) (loc_of_shr_record mrs1)) as [->| ->]; lia).
  pose proof (shr_fexp_nonneg q e1 loc_Exact Hq) as H2.
  destruct (shr_fexp prec emax q e1 loc_Exact) as [mrs2 e2]. cbn [fst] in H2.
  destruct (shr_m mrs2) as [|k|k]; try reflexivity; [|lia].
  destruct (e2 <=? emax - prec); reflexivity.
Qed.

(** The quotient of two finite doubles is not a NaN. *)
Lemma div_finite_not_nan (sx sy : bool) (mx my : positive) (ex ey : Z) :
  is_nan (div (S754_finite sx mx ex) (S754_finite sy my ey)) = false.
Proof.
  unfold div, SFdiv, SFdiv_core_binary.
  set (m' := match _ - _ - _ with Z0 => _ | Zpos _ => _ | Zneg _ => _ end).
  assert (Hm' : 0 <= m').
  { subst m'. destruct (_ - _ - _); try lia. apply Z.shiftl_nonneg. lia. }
  pose proof (Z_div_mod m' (Zpos my) ltac:(lia)) as Hdm.
  destruct (Z.div_eucl m' (Zpos my)) as [q r].
  apply round_aux_not_nan. nia.
Qed.

(** The quotient of two integers of at most 64 bits, the divisor not zero,
    is a double, not a NaN. *)
Lemma div_of_int_not_nan (x w : Z) :
  - 2 ^ 63 <= x <= 2 ^ 63 -> - 2 ^ 63 <= w <= 2 ^ 63 -> w <> 0 ->
  is_nan (div (of_int x) (of_int w)) = false.
Proof.
  intros Hx Hw Hw0.
  destruct (of_int_finite w Hw0 Hw) as (sw & mw & ew & Ew). rewrite Ew.
  destruct (Z.eq_dec x 0) as [->|Hx0]; [reflexivity|].
  destruct (of_int_finite x Hx0 Hx) as (sx & mx & ex & Ex). rewrite Ex.
  apply div_finite_not_nan.
Qed.

Lemma m_0_01_centi : 100 * m_0_01 = 2 ^ 59 + 12.
Proof. reflexivity. Qed.

(** The product of a normalised positive double with [0.01]: the exact
    product of the mantissas, shifted right by [n] digits and possibly
    incremented by the rounding. *)
Lemma mul_0_01_finite (m : positive) (e : Z) :
  Zpos (digits2_pos m) = 53 -> -60 <= e <= 20 ->
  exists (m' : positive) (e' n : Z),
    mul (S754_finite false m e) lit_0_01 = S754_finite false m' e'
    /\ 52 <= n <= 53
    /\ 2 ^ 52 <= Zpos m' < 2 ^ 53
    /\ e - 59 + n <= e' <= e - 59 + n + 1
    /\ (Zpos m' * 2 ^ (e' - (e - 59 + n)) = Zpos m * m_0_01 / 2 ^ n
        \/ Zpos m' * 2 ^ (e' - (e - 59 + n)) = Zpos m * m_0_01 / 2 ^ n + 1).
Proof.
  intros Hd He.
  pose proof (digits2_pos_bounds m) as [Mlo Mhi]. rewrite Hd in Mlo, Mhi.
  change (53 - 1) with 52 in Mlo.
  unfold mul, SFmul, lit_0_01. cbn [xorb].
  set (M := (m * 5764607523034235)%positive).
  assert (HM : Zpos M = Zpos m * m_0_01) by (subst M; rewrite Pos2Z.inj_mul; reflexivity).
  assert (HMb : 2 ^ 104 < Zpos M < 2 ^ 106) by (rewrite HM; unfold m_0_01; lia).
  pose proof (digits2_pos_bounds M) as [Dlo Dhi].
  set (d := Zpos (digits2_pos M)) in *.
  assert (Hdd : 105 <= d <= 106).
  { split.
    - destruct (Z_lt_le_dec d 105) as [H|H]; [|assumption].
      assert (2 ^ d <= 2 ^ 104) by (apply Z.pow_le_mono_r; lia). lia.
    - destruct (Z_lt_le_dec 106 d) as [H|H]; [|assumption].
      assert (2 ^ 106 <= 2 ^ (d - 1)) by (apply Z.pow_le_mono_r; lia). lia. }
  destruct (round_aux_finite false M (e + -59)) as (m' & e' & E & Hm' & He' & Hq);
    fold d; try lia.
  exists m', e', (d - 53). rewrite E, <- HM.
  replace (e - 59 + (d - 53)) with (e + -59 + (d - 53)) by lia.
  repeat split; try lia. exact Hq.
Qed.

(** Below 2^52 the double product [p * 0.01], truncated, is exactly the
    integer quotient [p / 100]. *)
Lemma mul_0_01_exact (p : positive) :
  Zpos p < 2 ^ 52 ->
  exists (m' : positive) (e' : Z),
    mul (of_int (Zpos p)) lit_0_01 = S754_finite false m' e'
    /\ trunc (S754_finite false m' e') = Zpos p / 100.
Proof.
  intros Hp.
  destruct (of_int_small p) as (m & Em & Hm & Hdm); [lia|].
  set (d := Zpos (digits2_pos p)) in *.
  pose proof (digits2_pos_bounds p) as [Blo Bhi]. fold d in Blo, Bhi.
  assert (Hd : 1 <= d <= 52).
  { split; [subst d; lia|].
    destruct (Z_lt_le_dec 52 d) as [H|H]; [|assumption].
    assert (2 ^ 52 <= 2 ^ (d - 1)) by (apply Z.pow_le_mono_r; lia). lia. }
  destruct (mul_0_01_finite m (d - 53)) as (m' & e' & n & E & Hn & Hm' & He' & Hq);
    [assumption | lia |].
  exists m', e'. rewrite Em, E. split; [reflexivity|]. unfold trunc.
  replace (0 <=? e') with false by (symmetry; apply Z.leb_gt; lia).
  (* the scales involved *)
  set (s := 2 ^ (53 - d)) in *.
  assert (Hs : 2 <= s).
  { subst s. change 2 with (2 ^ 1) at 1. apply Z.pow_le_mono_r; lia. }
  set (dl := e' - (d - 53 - 59 + n)) in *.
  set (T := 2 ^ (- e')).
  set (D := 2 ^ dl) in *.
  assert (HT : 0 < T) by (apply Z.pow_pos_nonneg; lia).
  assert (HD : 0 < D) by (apply Z.pow_pos_nonneg; lia).
  assert (Hscale : 2 ^ n * (T * D) = 2 ^ 59 * s).
  { subst T D s dl. rewrite <- !Z.pow_add_r by lia. f_equal. lia. }
  assert (H2n : 0 < 2 ^ n <= 2 ^ 53).
  { split; [apply Z.pow_pos_nonneg; lia | apply Z.pow_le_mono_r; lia]. }
  set (k := Zpos p / 100).
  assert (Hk : 100 * k <= Zpos p <= 100 * k + 99).
  { pose proof (Z.div_mod (Zpos p) 100 ltac:(lia)) as Hdm'.
    pose proof (Z.mod_pos_bound (Zpos p) 100 ltac:(lia)). fold k in Hdm'. lia. }
  assert (Hk0 : 0 <= k) by lia.
  set (M := Zpos m * m_0_01) in *.
  assert (HM : M = Zpos p * m_0_01 * s) by (subst M; rewrite Hm; ring).
  pose proof m_0_01_centi as Hc.
  (* lower bound *)
  assert (Hlow : k * (T * D) <= M / 2 ^ n).
  { apply Z.div_le_lower_bound; [lia|].
    replace (2 ^ n * (k * (T * D))) with (k * (2 ^ n * (T * D))) by ring.
    rewrite Hscale, HM.
    replace (k * (2 ^ 59 * s)) with (k * 2 ^ 59 * s) by ring.
    apply Z.mul_le_mono_nonneg_r; [lia|]. unfold m_0_01 in *. lia. }
  (* upper bound *)
  assert (Hupp : M / 2 ^ n + 1 < (k + 1) * (T * D)).
  { assert (M / 2 ^ n < (k + 1) * (T * D) - 1); [|lia].
    apply Z.div_lt_upper_bound; [lia|].
    replace (2 ^ n * ((k + 1) * (T * D) - 1))
      with ((k + 1) * (2 ^ n * (T * D)) - 2 ^ n) by ring.
    rewrite Hscale, HM.
    set (X := (k + 1) * 2 ^ 59 - Zpos p * m_0_01).
    assert (HX : 2 ^ 53 < 2 * X) by (subst X; unfold m_0_01 in *; lia).
    assert (HXs : 2 * X <= X * s) by nia.
    replace ((k + 1) * (2 ^ 59 * s)) with (Zpos p * m_0_01 * s + X * s)
      by (subst X; ring).
    lia. }
  symmetry. apply Z.div_unique with (r := Zpos m' - k * T).
  - left. split.
    + assert (k * T * D <= Zpos m' * D) by (destruct Hq as [->| ->]; lia).
      assert (k * T <= Zpos m'); [|lia].
      apply Z.mul_le_mono_pos_r with (p := D); assumption.
    + assert (Zpos m' * D < (k + 1) * T * D) by (destruct Hq as [->| ->]; lia).
      assert (Zpos m' < (k + 1) * T); [|lia].
      apply Z.mul_lt_mono_pos_r with (p := D); assumption.
  - ring.
Qed.

(** From 2^52 on the product is a double of at least 2^45. *)
Lemma mul_0_01_large (p : positive) :
  2 ^ 52 <= Zpos p <= 2 ^ 63 ->
  exists (m' : positive) (e' : Z),
    mul (of_int (Zpos p)) lit_0_01 = S754_finite false m' e'
    /\ 2 ^ 45 <= trunc (S754_finite false m' e').
Proof.
  intros Hp.
  assert (Hof : exists (m : positive) (e : Z),
             of_int (Zpos p) = S754_finite false m e
             /\ Zpos (digits2_pos m) = 53 /\ 0 <= e <= 12).
  { destruct (Z_lt_le_dec (Zpos p) (2 ^ 53)) as [Hlt|Hge].
    - destruct (of_int_small p Hlt) as (m & Em & _ & Hdm).
      assert (Zpos (digits2_pos p) = 53) by (apply digits2_pos_unique; change (53 - 1) with 52; lia).
      exists m, (Zpos (digits2_pos p) - 53). repeat split; try assumption; lia.
    - destruct (of_int_large p) as (m & e & Em & Hm & He); [lia|].
      exists m, e. repeat split; try assumption; try lia.
      apply digits2_pos_unique. change (53 - 1) with 52. lia. }
  destruct Hof as (m & e & Em & Hdm & He).
  destruct (mul_0_01_finite m e) as (m' & e' & n & E & Hn & Hm' & He' & _);
    [assumption | lia |].
  exists m', e'. rewrite Em, E. split; [reflexivity|]. unfold trunc.
  destruct (Z.leb_spec 0 e') as [Hpos|Hneg].
  - assert (0 < 2 ^ e') by (apply Z.pow_pos_nonneg; lia). nia.
  - assert (0 < 2 ^ (- e') <= 2 ^ 7)
      by (split; [apply Z.pow_pos_nonneg; lia | apply Z.pow_le_mono_r; lia]).
    apply Z.div_le_lower_bound; [lia|].
    apply Z.le_trans with (2 ^ 7 * 2 ^ 45); [|lia].
    apply Z.mul_le_mono_nonneg_r; lia.
Qed.

End RealFacts.

(* ================================================================== *)
(** * Facts about the SQL operators *)
(* ================================================================== *)

Module SqlFacts.
Import Sql.

Lemma in_int64_iff (z : Z) : in_int64 z = true <-> min_int64 <= z <= max_int64.
Proof. unfold in_int64. rewrite andb_true_iff, !Z.leb_le. tauto. Qed.

Lemma truth_of_bool (b : bool) : truth (of_bool b) = Some b.
Proof. destruct b; reflexivity. Qed.

Lemma sql_gt_int (a b : Z) : sql_gt (VInt a) (VInt b) = of_bool (b <? a).
Proof.
  unfold sql_gt; cbn [compare]. rewrite Z.ltb_antisym, Z.leb_compare.
  destruct (a ?= b); reflexivity.
Qed.

Lemma sql_lt_int (a b : Z) : sql_lt (VInt a) (VInt b) = of_bool (a <? b).
Proof.
  unfold sql_lt; cbn [compare]. unfold Z.ltb. destruct (a ?= b); reflexivity.
Qed.

Lemma sql_ge_int (a b : Z) : sql_ge (VInt a) (VInt b) = of_bool (b <=? a).
Proof.
  unfold sql_ge; cbn [compare]. rewrite Z.leb_antisym. unfold Z.ltb.
  destruct (a ?= b); reflexivity.
Qed.

Lemma sql_le_int (a b : Z) : sql_le (VInt a) (VInt b) = of_bool (a <=? b).
Proof.
  unfold sql_le; cbn [compare]. unfold Z.leb. destruct (a ?= b); reflexivity.
Qed.

Lemma sql_and_bool (a b : bool) : sql_and (of_bool a) (of_bool b) = of_bool (a && b).
Proof. destruct a, b; reflexivity. Qed.

Lemma sql_case_bool (b : bool) (x y : value) :
  sql_case (of_bool b) x y = if b then x else y.
Proof. destruct b; reflexivity. Qed.

Lemma sql_add_int (x y : Z) :
  min_int64 <= x + y <= max_int64 -> sql_add (VInt x) (VInt y) = VInt (x + y).
Proof.
  intros H. unfold sql_add, arith.
  rewrite (proj2 (in_int64_iff (x + y)) H). reflexivity.
Qed.

Lemma sql_sub_int (x y : Z) :
  min_int64 <= x - y <= max_int64 -> sql_sub (VInt x) (VInt y) = VInt (x - y).
Proof.
  intros H. unfold sql_sub, arith.
  rewrite (proj2 (in_int64_iff (x - y)) H). reflexivity.
Qed.

Lemma sql_div_pos (x y : Z) :
  0 <= x <= max_int64 -> 0 < y -> sql_div (VInt x) (VInt y) = VInt (x / y).
Proof.
  intros Hx Hy. unfold sql_div.
  replace (y =? 0) with false by (symmetry; apply Z.eqb_neq; lia).
  rewrite Z.quot_div_nonneg by lia.
  assert (Hq : 0 <= x / y <= x).
  { split; [apply Z.div_pos; lia|]. apply Z.div_le_upper_bound; nia. }
  rewrite (proj2 (in_int64_iff (x / y))) by (unfold min_int64, max_int64 in *; lia).
  reflexivity.
Qed.

(** [CAST(p * 0.01 AS INTEGER)] is the integer quotient [p / 100] for every
    non-negative [p] below 2^52. *)
Lemma cast_mul_0_01 (p : Z) :
  0 <= p < 2 ^ 52 ->
  cast_integer (sql_mul (VInt p) (VReal Real.lit_0_01)) = VInt (p / 100).
Proof.
  intros Hp. unfold sql_mul, arith, to_real.
  destruct p as [|p|p]; [reflexivity| |lia].
  destruct (RealFacts.mul_0_01_exact p) as (m' & e' & E & Ht); [lia|].
  rewrite E. cbn [of_real Real.is_nan cast_integer]. rewrite Ht.
  assert (0 <= Zpos p / 100 <= Zpos p).
  { split; [apply Z.div_pos; lia|]. apply Z.div_le_upper_bound; lia. }
  f_equal. unfold min_int64, max_int64. lia.
Qed.

(** From 2^52 up to the largest 64-bit integer it is at least 2^45. *)
Lemma cast_mul_0_01_large (p : Z) :
  2 ^ 52 <= p <= max_int64 ->
  exists c : Z, cast_integer (sql_mul (VInt p) (VReal Real.lit_0_01)) = VInt c
                /\ 2 ^ 45 <= c.
Proof.
  intros Hp. unfold sql_mul, arith, to_real.
  destruct p as [|p|p]; try lia.
  destruct (RealFacts.mul_0_01_large p) as (m' & e' & E & Ht);
    [unfold max_int64 in Hp; lia|].
  rewrite E. cbn [of_real Real.is_nan cast_integer].
  eexists. split; [reflexivity|]. unfold min_int64, max_int64. lia.
Qed.

End SqlFacts.

(* ================================================================== *)
(** * The derived metrics of a row *)
(* ================================================================== *)

Import Sql Npy.

(** ** Tax *)

(** The price the [tax] column is taken from:
    [COALESCE(sell_price, wiki_price, 0)]. *)
Lemma taxed_price_coalesce (r : row) :
  call COALESCE [col (sell_price r); col (wiki_price r); VInt 0]
  = Value (VInt match sell_price r, wiki_price r with
                | Some s, _ => s
                | None, Some w => w
                | None, None => 0
                end).
Proof. destruct (sell_price r), (wiki_price r); reflexivity. Qed.

(** The call of [LEAST] fails whatever it is given. *)
Lemma tax_of_unresolved (p : value) : tax_of p = NoSuchFunction LEAST.
Proof. reflexivity. Qed.

(** No row has a tax: the column's expression fails on every row, and with
    it the statement that creates the table. *)
Lemma tax_unresolved (r : row) : tax r = NoSuchFunction LEAST.
Proof. unfold tax. rewrite taxed_price_coalesce. reflexivity. Qed.

(** C5 at the two reference prices.  The claim gives tax(1,000) = 10 and
    tax(500,000,000) = 5,000,000; the schema's
    [LEAST(5000000, CAST(p * 0.01 AS INTEGER))] yields no value for either:
    the engine knows no function [LEAST]. *)
Theorem tax_no_such_function :
  tax_of (VInt 1000) = NoSuchFunction LEAST
  /\ tax_of (VInt 500000000) = NoSuchFunction LEAST
  /\ Spec.tax 1000 = 10
  /\ Spec.tax 500000000 = 5000000
  /\ tax_of (VInt 1000) <> Value (VInt (Spec.tax 1000)).
Proof.
  split; [apply tax_of_unresolved|].
  split; [apply tax_of_unresolved|].
  split; [reflexivity|]. split; [reflexivity|].
  rewrite tax_of_unresolved. discriminate.
Qed.

(** C9 at a row with reference price 777, buy price 90 and sell price 110.
    The column takes the sell price, as the claim says, and the claim gives
    the stored tax min(5,000,000, floor(110 / 100)) = 1; the call of
    [LEAST] around it fails and no tax is stored.  The same holds where the
    price comes from the reference price or is zero. *)
Theorem tax_column_no_such_function :
  call COALESCE [col (Some 110); col (Some 777); VInt 0] = Value (VInt 110)
  /\ Spec.tax 110 = 1
  /\ tax (Examples.priced (Some 777) (Some 90) (Some 110))
     = NoSuchFunction LEAST
  /\ tax (Examples.priced (Some 777) (Some 90) (Some 110))
     <> Value (VInt (Spec.tax 110))
  /\ tax (Examples.priced (Some 777) (Some 90) None) = NoSuchFunction LEAST
  /\ tax (Examples.priced None (Some 90) None) = NoSuchFunction LEAST.
Proof.
  split; [reflexivity|]. split; [reflexivity|].
  rewrite !tax_unresolved.
  split; [reflexivity|]. split; [discriminate|]. split; reflexivity.
Qed.

(** ** Combined interval price *)

(** The guard [buy_price > 0 AND sell_price > 0] on two nullable columns. *)
Lemma both_positive_guard (b s : option Z) :
  truth (sql_and (sql_gt (col b) (VInt 0)) (sql_gt (col s) (VInt 0)))
  = match b, s with
    | Some x, Some y => Some ((0 <? x) && (0 <? y))
    | Some x, None => if 0 <? x then None else Some false
    | None, Some y => if 0 <? y then None else Some false
    | None, None => None
    end.
Proof.
  destruct b as [x|], s as [y|]; cbn [col];
    rewrite ?SqlFacts.sql_gt_int; try reflexivity.
  - rewrite SqlFacts.sql_and_bool. apply SqlFacts.truth_of_bool.
  - destruct (0 <? x); reflexivity.
  - destruct (0 <? y); reflexivity.
Qed.

(** C1, as the schema computes it.  The combined interval price is the
    floored average of the buy and sell prices when both are present and
    strictly positive; otherwise it is the buy price when that is present,
    otherwise the sell price when that is present, otherwise zero.  In
    particular a row with a buy price and no sell price has the buy price.
    (The sum of the two prices is assumed to fit 64 bits.) *)
Theorem avg5m_price_cases (r : row) :
  (forall b s, buy_price r = Some b -> sell_price r = Some s ->
               b + s <= max_int64) ->
  avg5m_price r
  = VInt match buy_price r, sell_price r with
         | Some b, Some s => if (0 <? b) && (0 <? s) then (b + s) / 2 else b
         | Some b, None => b
         | None, Some s => s
         | None, None => 0
         end.
Proof.
  intros Hfit. unfold avg5m_price, sql_case.
  rewrite both_positive_guard.
  destruct (buy_price r) as [b|], (sell_price r) as [s|]; cbn [col coalesce].
  - specialize (Hfit b s eq_refl eq_refl).
    destruct ((0 <? b) && (0 <? s)) eqn:G; [|reflexivity].
    apply andb_true_iff in G. destruct G as [Hb Hs].
    apply Z.ltb_lt in Hb, Hs.
    rewrite SqlFacts.sql_add_int by (unfold min_int64; lia).
    rewrite SqlFacts.sql_div_pos by lia. reflexivity.
  - destruct (0 <? b); reflexivity.
  - destruct (0 <? s); reflexivity.
  - reflexivity.
Qed.

Lemma avg5m_price_cases_witness :
  avg5m_price (Examples.interval (Some 90) (Some 111)) = VInt 100
  /\ avg5m_price (Examples.interval (Some 90) None) = VInt 90.
Proof.
  split.
  - apply (avg5m_price_cases (Examples.interval (Some 90) (Some 111))).
    intros b s Hb Hs. injection Hb as <-. injection Hs as <-.
    unfold max_int64. lia.
  - apply (avg5m_price_cases (Examples.interval (Some 90) None)).
    intros b s Hb Hs. discriminate Hs.
Defined.

(** C1 as stated fails on a row whose buy price is present and zero: with
    sell price 100 the stored value is 0, neither the floored average 50
    nor the sell price 100. *)
Lemma avg5m_price_zero_buy :
  avg5m_price (Examples.interval (Some 0) (Some 100)) = VInt 0
  /\ avg5m_price (Examples.interval (Some 0) (Some 100))
     <> VInt (Spec.combined_price (Some 0) (Some 100))
  /\ avg5m_price (Examples.interval (Some 0) (Some 100)) <> VInt 100.
Proof. repeat split; discriminate. Qed.

(** ** Trade margin *)

(** C3, as the schema computes it.  The trade margin is
    sell - buy - tax(sell), with tax(p) = min(5,000,000, floor(p / 100)),
    when both interval prices are present and strictly positive and the sell
    price is at most 500,000,099, the prices whose uncapped tax does not
    exceed the cap; it is zero when either price is absent or not positive,
    whatever the other price is. *)
Theorem avg5m_margin_cases (r : row) :
  (forall b s, buy_price r = Some b -> sell_price r = Some s ->
               0 < b -> 0 < s ->
               b <= max_int64 /\ s <= 500000099) ->
  avg5m_margin r
  = VInt match buy_price r, sell_price r with
         | Some b, Some s =>
             if (0 <? b) && (0 <? s) then s - b - Z.min 5000000 (s / 100)
             else 0
         | _, _ => 0
         end.
Proof.
  intros Hfit. unfold avg5m_margin, sql_case.
  rewrite both_positive_guard.
  destruct (buy_price r) as [b|], (sell_price r) as [s|]; cbn [col].
  - destruct ((0 <? b) && (0 <? s)) eqn:G; [|reflexivity].
    apply andb_true_iff in G. destruct G as [Hb Hs].
    apply Z.ltb_lt in Hb, Hs.
    destruct (Hfit b s eq_refl eq_refl Hb Hs) as [Hbmax Hsmax].
    assert (Hq : 0 <= s / 100 <= 5000000).
    { split; [apply Z.div_pos; lia|].
      assert (s / 100 < 5000001) by (apply Z.div_lt_upper_bound; lia). lia. }
    assert (Hqs : 100 * (s / 100) <= s) by (apply Z.mul_div_le; lia).
    rewrite SqlFacts.cast_mul_0_01 by lia.
    rewrite SqlFacts.sql_sub_int by (unfold min_int64, max_int64 in *; lia).
    rewrite SqlFacts.sql_sub_int by (unfold min_int64, max_int64 in *; lia).
    cbn [affinity_integer]. f_equal. lia.
  - destruct (0 <? b); reflexivity.
  - destruct (0 <? s); reflexivity.
  - reflexivity.
Qed.

Lemma avg5m_margin_cases_witness :
  avg5m_margin (Examples.interval (Some 90) (Some 110)) = VInt 19
  /\ avg5m_margin (Examples.interval (Some 90) None) = VInt 0
  /\ avg5m_margin (Examples.interval (Some 0) (Some 600000000)) = VInt 0
  /\ avg5m_margin (Examples.interval None (Some 600000000)) = VInt 0.
Proof.
  split; [|split; [|split]].
  - apply (avg5m_margin_cases (Examples.interval (Some 90) (Some 110))).
    intros b s Hb Hs _ _. injection Hb as <-. injection Hs as <-.
    unfold max_int64. lia.
  - apply (avg5m_margin_cases (Examples.interval (Some 90) None)).
    intros b s Hb Hs. discriminate Hs.
  - apply (avg5m_margin_cases (Examples.interval (Some 0) (Some 600000000))).
    intros b s Hb Hs Hpos. injection Hb as <-. lia.
  - apply (avg5m_margin_cases (Examples.interval None (Some 600000000))).
    intros b s Hb. discriminate Hb.
Defined.

(** C3 as stated fails on a row whose buy price is present and zero: with
    sell price 100 the claim gives 100 - 0 - 1 = 99, the stored margin is 0. *)
Lemma avg5m_margin_zero_buy :
  avg5m_margin (Examples.interval (Some 0) (Some 100)) = VInt 0
  /\ Spec.trade_margin (Some 0) (Some 100) = 99
  /\ avg5m_margin (Examples.interval (Some 0) (Some 100))
     <> VInt (Spec.trade_margin (Some 0) (Some 100)).
Proof. repeat split; discriminate. Qed.

(** Above 500,000,099 the margin column subtracts the uncapped
    [CAST(sell_price * 0.01 AS INTEGER)], where the tax of the
    specification is capped. *)
Lemma avg5m_margin_uncapped :
  avg5m_margin (Examples.interval (Some 1) (Some 600000000)) = VInt 593999999
  /\ Spec.tax 600000000 = 5000000
  /\ Spec.trade_margin (Some 1) (Some 600000000) = 594999999.
Proof. repeat split. Qed.

(** ** Combined interval volume *)

(** When both volumes are present the combined volume is their sum. *)
Lemma avg5m_volume_both (r : row) (b s : Z) :
  buy_volume r = Some b -> sell_volume r = Some s ->
  min_int64 <= b + s <= max_int64 ->
  avg5m_volume r = VInt (b + s).
Proof.
  intros Hb Hs Hfit. unfold avg5m_volume. rewrite Hb, Hs. cbn [col].
  rewrite SqlFacts.sql_add_int by assumption. reflexivity.
Qed.

(** An absent volume on either side makes the combined volume NULL. *)
Lemma avg5m_volume_null (r : row) :
  buy_volume r = None \/ sell_volume r = None -> avg5m_volume r = VNull.
Proof.
  intros [H|H]; unfold avg5m_volume; rewrite H; cbn [col].
  - reflexivity.
  - destruct (buy_volume r); reflexivity.
Qed.

(** C4 at a row with buy volume 5 and no sell volume: the claim gives the
    combined volume 5, the stored column is NULL. *)
Theorem avg5m_volume_absent_side :
  avg5m_volume (Examples.volumes (Some 5) None) = VNull
  /\ Spec.combined_volume (Some 5) None = 5.
Proof. split; reflexivity. Qed.

(** ** Realtime spread margin *)


(** With a positive tick count the spread margin is
    max - min - floor(average / 100): the tax of the average without the
    cap. *)
Lemma rt_margin_positive_count (r : row) (n lo hi a : Z) :
  rt_count r = Some n -> rt_min_price r = Some lo ->
  rt_max_price r = Some hi -> rt_avg_price r = Some a ->
  0 < n -> 0 <= lo <= hi -> hi <= max_int64 -> 0 <= a < 2 ^ 52 ->
  rt_margin r = VInt (hi - lo - a / 100).
Proof.
  intros Hn Hlo Hhi Ha Hpos Hrange Hmax Havg.
  unfold rt_margin. rewrite Hn, Hlo, Hhi, Ha. cbn [col].
  rewrite SqlFacts.sql_gt_int, SqlFacts.sql_case_bool.
  replace (0 <? n) with true by (symmetry; apply Z.ltb_lt; assumption).
  assert (Hq : 0 <= a / 100 < 2 ^ 52).
  { split; [apply Z.div_pos; lia|]. apply Z.div_lt_upper_bound; lia. }
  rewrite SqlFacts.cast_mul_0_01 by assumption.
  rewrite SqlFacts.sql_sub_int by (unfold min_int64, max_int64 in *; lia).
  rewrite SqlFacts.sql_sub_int by (unfold min_int64, max_int64 in *; lia).
  reflexivity.
Qed.

(** With a zero, negative or absent tick count the spread margin is zero. *)
Lemma rt_margin_no_ticks (r : row) :
  (forall n, rt_count r = Some n -> n <= 0) -> rt_margin r = VInt 0.
Proof.
  intros Hn. unfold rt_margin.
  destruct (rt_count r) as [n|]; cbn [col]; [|reflexivity].
  rewrite SqlFacts.sql_gt_int, SqlFacts.sql_case_bool.
  replace (0 <? n) with false
    by (symmetry; apply Z.ltb_ge; apply Hn; reflexivity).
  reflexivity.
Qed.

(** C6 at a bucket of two ticks, 590,000,000 and 610,000,000 (average
    600,000,000): the claim gives 20,000,000 - tax(600,000,000)
    = 20,000,000 - 5,000,000 = 15,000,000; the stored column subtracts the
    uncapped 6,000,000 and holds 14,000,000. *)
Theorem rt_margin_uncapped :
  rt_margin (Examples.ticks (Some 2) (Some 590000000) (Some 610000000)
               (Some 600000000)) = VInt 14000000
  /\ Spec.spread_margin (Some 2) (Some 590000000) (Some 610000000)
       (Some 600000000) = 15000000
  /\ Spec.tax 600000000 = 5000000.
Proof. split; [|split]; reflexivity. Qed.

(** ** Relative price gaps *)

Lemma lit_0_20_nearest : 2 * Z.abs (5 * 7205759403792794 - 2 ^ 55) < 5.
Proof. reflexivity. Qed.

Lemma lit_0_10_nearest : 2 * Z.abs (10 * 7205759403792794 - 2 ^ 56) < 10.
Proof. reflexivity. Qed.

Lemma lit_0_01_nearest : 2 * Z.abs (100 * Real.m_0_01 - 2 ^ 59) < 100.
Proof. reflexivity. Qed.

(** The three literals are the correctly rounded quotients. *)
Lemma literals_are_quotients :
  Real.div (Real.of_int 1) (Real.of_int 100) = Real.lit_0_01
  /\ Real.div (Real.of_int 1) (Real.of_int 10) = Real.lit_0_10
  /\ Real.div (Real.of_int 1) (Real.of_int 5) = Real.lit_0_20.
Proof. split; [|split]; reflexivity. Qed.

(** [CAST(x - y AS REAL) / w] on integers, the divisor positive. *)
Lemma ratio_int (x y w : Z) :
  0 <= x <= max_int64 -> 0 <= y <= max_int64 -> 0 < w <= max_int64 ->
  sql_div (cast_real (sql_sub (VInt x) (VInt y))) (VInt w)
  = VReal (Real.div (Real.of_int (x - y)) (Real.of_int w)).
Proof.
  intros Hx Hy Hw.
  rewrite SqlFacts.sql_sub_int by (unfold min_int64, max_int64 in *; lia).
  cbn [cast_real sql_div].
  replace (w =? 0) with false by (symmetry; apply Z.eqb_neq; lia).
  unfold of_real, to_real.
  rewrite RealFacts.div_of_int_not_nan
    by (unfold min_int64, max_int64 in *; lia).
  reflexivity.
Qed.

(** The guard [wiki_price > 0] alone. *)
Lemma positive_guard (c : option Z) :
  truth (sql_gt (col c) (VInt 0))
  = match c with Some w => Some (0 <? w) | None => None end.
Proof.
  destruct c as [w|]; cbn [col]; [|reflexivity].
  rewrite SqlFacts.sql_gt_int. apply SqlFacts.truth_of_bool.
Qed.

(** C2, as the schema computes it.  With the snapshot (reference) price
    present and strictly positive, gap(buy, ref) = (buy - ref) / ref when
    the buy price is present, and gap(sell, buy) = (sell - buy) / ref when
    the sell price is present and the buy price is present and strictly
    positive.  All three gaps are zero when the reference price is absent
    or not positive, and gap(sell, buy) is also zero when the buy price is
    absent or not positive.  The quotients are double divisions of the
    integers converted to doubles. *)
Theorem price_ratio_cases (r : row) :
  price_ok (wiki_price r) -> price_ok (buy_price r) ->
  price_ok (sell_price r) ->
  (forall w b, wiki_price r = Some w -> buy_price r = Some b -> 0 < w ->
     price_ratio_buy_wiki r
     = VReal (Real.div (Real.of_int (b - w)) (Real.of_int w)))
  /\ (forall w b s, wiki_price r = Some w -> buy_price r = Some b ->
        sell_price r = Some s -> 0 < w -> 0 < b ->
        price_ratio_sell_buy r
        = VReal (Real.div (Real.of_int (s - b)) (Real.of_int w)))
  /\ ((forall w, wiki_price r = Some w -> w <= 0) ->
        price_ratio_buy_wiki r = VReal Real.zero
        /\ price_ratio_sell_wiki r = VReal Real.zero
        /\ price_ratio_sell_buy r = VReal Real.zero)
  /\ ((forall b, buy_price r = Some b -> b <= 0) ->
        price_ratio_sell_buy r = VReal Real.zero).
Proof.
  intros Hw Hb Hs. split; [|split; [|split]].
  - intros w b Ew Eb Hpos.
    unfold price_ratio_buy_wiki, sql_case. rewrite positive_guard, Ew, Eb.
    replace (0 <? w) with true by (symmetry; apply Z.ltb_lt; assumption).
    cbn [col]. rewrite ratio_int; [reflexivity | | |]; auto.
    specialize (Hw w Ew). lia.
  - intros w b s Ew Eb Es Hwpos Hbpos.
    unfold price_ratio_sell_buy, sql_case.
    rewrite Ew, Eb, Es. cbn [col].
    rewrite !SqlFacts.sql_gt_int, SqlFacts.sql_and_bool, SqlFacts.truth_of_bool.
    replace (0 <? w) with true by (symmetry; apply Z.ltb_lt; assumption).
    replace (0 <? b) with true by (symmetry; apply Z.ltb_lt; assumption).
    cbn [andb]. rewrite ratio_int; [reflexivity | | |]; auto.
    specialize (Hw w Ew). lia.
  - intros Hnone.
    assert (G : truth (sql_gt (col (wiki_price r)) (VInt 0)) = Some false
                \/ truth (sql_gt (col (wiki_price r)) (VInt 0)) = None).
    { rewrite positive_guard. destruct (wiki_price r) as [w|]; [left|right; reflexivity].
      f_equal. apply Z.ltb_ge. apply Hnone. reflexivity. }
    split; [|split].
    + unfold price_ratio_buy_wiki, sql_case. destruct G as [-> | ->]; reflexivity.
    + unfold price_ratio_sell_wiki, sql_case. destruct G as [-> | ->]; reflexivity.
    + unfold price_ratio_sell_buy, sql_case, sql_and.
      destruct (truth (sql_gt (col (buy_price r)) (VInt 0))) as [[|]|];
        destruct G as [G|G]; rewrite ?G; reflexivity.
  - intros Hnone.
    assert (G : truth (sql_gt (col (buy_price r)) (VInt 0)) = Some false
                \/ truth (sql_gt (col (buy_price r)) (VInt 0)) = None).
    { rewrite positive_guard. destruct (buy_price r) as [b|]; [left|right; reflexivity].
      f_equal. apply Z.ltb_ge. apply Hnone. reflexivity. }
    unfold price_ratio_sell_buy, sql_case, sql_and.
    destruct G as [G|G]; rewrite G;
      destruct (truth (sql_gt (col (wiki_price r)) (VInt 0))) as [[|]|];
      reflexivity.
Qed.

Lemma price_ok_some (v : Z) : 0 <= v <= max_int64 -> price_ok (Some v).
Proof. intros H x Hx. injection Hx as <-. exact H. Qed.

Lemma price_ok_none : price_ok None.
Proof. intros x Hx. discriminate Hx. Qed.

(** The reference case of the specification: reference price 100, buy 90,
    sell 110 gives gap(sell, buy) = 0.20 and gap(buy, ref) = -0.10; and a
    row without a reference price has all three gaps zero. *)
Lemma price_ratio_cases_witness :
  (price_ratio_sell_buy (Examples.priced (Some 100) (Some 90) (Some 110))
   = VReal Real.lit_0_20
   /\ price_ratio_buy_wiki (Examples.priced (Some 100) (Some 90) (Some 110))
      = VReal (Real.opp Real.lit_0_10))
  /\ (price_ratio_buy_wiki (Examples.priced None (Some 90) (Some 110))
      = VReal Real.zero
      /\ price_ratio_sell_wiki (Examples.priced None (Some 90) (Some 110))
         = VReal Real.zero
      /\ price_ratio_sell_buy (Examples.priced None (Some 90) (Some 110))
         = VReal Real.zero).
Proof.
  split.
  - destruct (price_ratio_cases (Examples.priced (Some 100) (Some 90) (Some 110)))
      as (A & B & _);
      try (apply price_ok_some; unfold max_int64; lia).
    split.
    + exact (B 100 90 110 eq_refl eq_refl eq_refl eq_refl eq_refl).
    + exact (A 100 90 eq_refl eq_refl eq_refl).
  - destruct (price_ratio_cases (Examples.priced None (Some 90) (Some 110)))
      as (_ & _ & C & _);
      try (apply price_ok_some; unfold max_int64; lia);
      try apply price_ok_none.
    apply C. intros w Hw. discriminate Hw.
Defined.

(** C2 as stated fails on a row whose buy price is present and zero:
    with reference 100 and sell 10 the claim gives gap(sell, buy)
    = (10 - 0) / 100 = 0.10, the stored gap is zero. *)
Lemma price_ratio_sell_buy_zero_buy :
  price_ratio_sell_buy (Examples.priced (Some 100) (Some 0) (Some 10))
  = VReal Real.zero
  /\ Spec.gap (Some 10) (Some 0) (Some 100) = Real.lit_0_10
  /\ price_ratio_sell_buy (Examples.priced (Some 100) (Some 0) (Some 10))
     <> VReal (Spec.gap (Some 10) (Some 0) (Some 100)).
Proof. split; [reflexivity | split; [reflexivity | discriminate]]. Qed.

(** X13. The third gap as stored: (sell - ref) / ref, where the README's
    [gap_ws] and the specification have (ref - sell) / ref. *)
Lemma price_ratio_sell_wiki_value (r : row) (w s : Z) :
  wiki_price r = Some w -> sell_price r = Some s ->
  0 < w <= max_int64 -> 0 <= s <= max_int64 ->
  price_ratio_sell_wiki r
  = VReal (Real.div (Real.of_int (s - w)) (Real.of_int w)).
Proof.
  intros Ew Es Hw Hs.
  unfold price_ratio_sell_wiki, sql_case. rewrite positive_guard, Ew, Es.
  replace (0 <? w) with true by (symmetry; apply Z.ltb_lt; lia).
  cbn [col]. rewrite ratio_int; [reflexivity | | |]; lia.
Qed.

Lemma price_ratio_sell_wiki_sign :
  price_ratio_sell_wiki (Examples.priced (Some 100) (Some 90) (Some 110))
  = VReal Real.lit_0_10
  /\ Spec.gap (Some 100) (Some 110) (Some 100) = Real.opp Real.lit_0_10.
Proof. split; reflexivity. Qed.

(** A gap whose guard passes while an operand is absent is NULL. *)
Lemma price_ratio_null_operand :
  price_ratio_sell_buy (Examples.priced (Some 100) (Some 90) None) = VNull
  /\ price_ratio_sell_wiki (Examples.priced (Some 100) (Some 90) None) = VNull
  /\ price_ratio_buy_wiki (Examples.priced (Some 100) None (Some 110)) = VNull.
Proof. split; [|split]; reflexivity. Qed.

(* ================================================================== *)
(** * The table under the updater's statements *)
(* ================================================================== *)

Import Updater.

(** ** Invariants of the reachable tables *)

Section Invariant.
Variable P : table -> Prop.
Hypothesis P_insert : forall t r t', P t -> insert t r = Ok t' -> P t'.
Hypothesis P_upsert : forall t r t', P t -> upsert t r = Ok t' -> P t'.
Hypothesis P_delete : forall now t, P t -> P (delete_expired now t).

Lemma invariant_upsert_all (rs : list row) :
  forall t t', P t -> upsert_all t rs = Ok t' -> P t'.
Proof.
  induction rs as [|r rs IH]; intros t t' Ht E; cbn [upsert_all] in E.
  - injection E as <-. exact Ht.
  - destruct (upsert t r) as [t1|e] eqn:E1; [|discriminate E].
    apply (IH t1); [apply (P_upsert t r); assumption | exact E].
Qed.

Lemma invariant_exec (t : table) (s : statement) : P t -> P (exec t s).
Proof.
  intros Ht. destruct s as [r|r|now|now rs]; cbn [exec].
  - unfold insert_into. destruct (insert t r) as [t'|e] eqn:E; cbn [after]; eauto.
  - destruct (upsert t r) as [t'|e] eqn:E; cbn [after]; eauto.
  - apply P_delete, Ht.
  - unfold update_cycle.
    destruct (upsert_all t rs) as [t'|e] eqn:E; cbn [after]; [|exact Ht].
    apply P_delete. apply (invariant_upsert_all rs t); assumption.
Qed.

Lemma invariant_reachable : P [] -> forall t, reachable t -> P t.
Proof.
  intros P0 t R. induction R as [|t s R IH]; [exact P0|].
  apply invariant_exec, IH.
Qed.
End Invariant.

(** ** Uniqueness of (item_id, anchor) *)

Lemma rows_at_app (t u : table) (i a : Z) :
  rows_at (t ++ u) i a = rows_at t i a ++ rows_at u i a.
Proof. apply filter_app. Qed.

Lemma rows_at_filter_length (f : row -> bool) (t : table) (i a : Z) :
  (length (rows_at (filter f t) i a) <= length (rows_at t i a))%nat.
Proof.
  unfold rows_at. induction t as [|x t IH]; cbn [filter]; [lia|].
  destruct (f x); cbn [filter]; destruct (has_key i a x); cbn [length]; lia.
Qed.

Lemma opt_eqb_some (c : option Z) (v : Z) : opt_eqb c (Some v) = true -> c = Some v.
Proof.
  destruct c as [x|]; cbn [opt_eqb]; [|discriminate].
  intros H. apply Z.eqb_eq in H. congruence.
Qed.

Lemma has_key_inv (i a : Z) (r : row) :
  has_key i a r = true -> item_id r = Some i /\ timestamp r = Some a.
Proof.
  unfold has_key. rewrite andb_true_iff. intros [H1 H2].
  split; apply opt_eqb_some; assumption.
Qed.

Lemma has_key_same_key (i a : Z) (x r : row) :
  has_key i a r = true -> same_key x r = has_key i a x.
Proof.
  intros H. apply has_key_inv in H. destruct H as [Hi Ha].
  unfold same_key, has_key. rewrite Hi, Ha. reflexivity.
Qed.

(** No row of the key is left once the colliding rows are filtered out. *)
Lemma rows_at_without (t : table) (r : row) (i a : Z) :
  has_key i a r = true ->
  rows_at (filter (fun x => negb (same_id x r || same_key x r)) t) i a = [].
Proof.
  intros H. unfold rows_at. induction t as [|x t IH]; [reflexivity|].
  cbn [filter]. rewrite (has_key_same_key i a x r H).
  destruct (has_key i a x) eqn:K.
  - rewrite orb_true_r. exact IH.
  - rewrite orb_false_r. destruct (same_id x r); cbn [negb filter];
      [exact IH | rewrite K; exact IH].
Qed.

Lemma rows_at_absent (t : table) (r : row) (i a : Z) :
  existsb (fun x => same_id x r || same_key x r) t = false ->
  has_key i a r = true -> rows_at t i a = [].
Proof.
  intros Hex H. unfold rows_at. induction t as [|x t IH]; [reflexivity|].
  cbn [existsb] in Hex. apply orb_false_iff in Hex. destruct Hex as [Hx Ht].
  apply orb_false_iff in Hx. destruct Hx as [_ Hx].
  rewrite (has_key_same_key i a x r H) in Hx.
  cbn [filter]. rewrite Hx. exact (IH Ht).
Qed.

Lemma rows_at_single (r : row) (i a : Z) :
  rows_at [r] i a = if has_key i a r then [r] else [].
Proof. unfold rows_at. cbn [filter]. reflexivity. Qed.

Lemma assign_id_key (t : table) (r : row) :
  item_id (assign_id t r) = item_id r /\ timestamp (assign_id t r) = timestamp r.
Proof. unfold assign_id. destruct (id r); split; reflexivity. Qed.

Lemma has_key_assign_id (t : table) (r : row) (i a : Z) :
  has_key i a (assign_id t r) = has_key i a r.
Proof.
  unfold has_key. destruct (assign_id_key t r) as [-> ->]. reflexivity.
Qed.

Lemma insert_ok_inv (t : table) (r : row) (t' : table) :
  insert t r = Ok t' ->
  not_null_ok (assign_id t r) = true /\ check_ok (assign_id t r) = true
  /\ existsb (fun x => same_id x (assign_id t r) || same_key x (assign_id t r)) t = false
  /\ t' = t ++ [assign_id t r].
Proof.
  unfold insert.
  destruct (not_null_ok (assign_id t r)); cbn [negb]; [|discriminate].
  destruct (check_ok (assign_id t r)); cbn [negb]; [|discriminate].
  destruct (existsb _ t); [discriminate|].
  intros E. injection E as <-. auto.
Qed.

Lemma upsert_ok_inv (t : table) (r : row) (t' : table) :
  upsert t r = Ok t' ->
  not_null_ok (assign_id t r) = true /\ check_ok (assign_id t r) = true
  /\ t' = filter (fun x => negb (same_id x (assign_id t r)
                                || same_key x (assign_id t r))) t
          ++ [assign_id t r].
Proof.
  unfold upsert.
  destruct (not_null_ok (assign_id t r)); cbn [negb]; [|discriminate].
  destruct (check_ok (assign_id t r)); cbn [negb]; [|discriminate].
  intros E. injection E as <-. auto.
Qed.

Lemma constraints_assign_id (t : table) (r : row) :
  not_null_ok (assign_id t r) = not_null_ok r
  /\ check_ok (assign_id t r) = check_ok r.
Proof. unfold assign_id. destruct (id r); split; reflexivity. Qed.

(** An upsert of a row that satisfies NOT NULL and CHECK always succeeds. *)
Lemma upsert_succeeds (t : table) (r : row) :
  not_null_ok r = true -> check_ok r = true ->
  exists t', upsert t r = Ok t'.
Proof.
  intros Hn Hc. unfold upsert.
  destruct (constraints_assign_id t r) as [-> ->]. rewrite Hn, Hc.
  cbn [negb]. eauto.
Qed.

Lemma unique_keys_insert (t : table) (r : row) (t' : table) :
  unique_keys t -> insert t r = Ok t' -> unique_keys t'.
Proof.
  intros U E i a. apply insert_ok_inv in E. destruct E as (_ & _ & Hex & ->).
  rewrite rows_at_app, rows_at_single, length_app.
  destruct (has_key i a (assign_id t r)) eqn:K; cbn [length].
  - rewrite (rows_at_absent t _ i a Hex K). cbn [length]. lia.
  - specialize (U i a). lia.
Qed.

Lemma unique_keys_upsert (t : table) (r : row) (t' : table) :
  unique_keys t -> upsert t r = Ok t' -> unique_keys t'.
Proof.
  intros U E i a. apply upsert_ok_inv in E. destruct E as (_ & _ & ->).
  rewrite rows_at_app, rows_at_single, length_app.
  destruct (has_key i a (assign_id t r)) eqn:K; cbn [length].
  - rewrite (rows_at_without t _ i a K). cbn [length]. lia.
  - pose proof (rows_at_filter_length
                  (fun x => negb (same_id x (assign_id t r)
                                  || same_key x (assign_id t r))) t i a).
    specialize (U i a). lia.
Qed.

Lemma unique_keys_delete (now : Z) (t : table) :
  unique_keys t -> unique_keys (delete_expired now t).
Proof.
  intros U i a. unfold delete_expired.
  pose proof (rows_at_filter_length
                (fun r => negb (expired (now - retention_window) r)) t i a).
  specialize (U i a). lia.
Qed.

(** C7. In every state of the derived table reachable from the empty table
    there is at most one row per (item_id, anchor); every statement (insert,
    upsert, retention deletion, a whole update cycle) preserves this; and an
    upsert of a row for an (item_id, anchor) succeeds whenever the row meets
    the NOT NULL and CHECK constraints and leaves exactly that row for the
    key, replacing the one that was there. *)
Theorem unique_item_anchor :
  (forall t, reachable t -> unique_keys t)
  /\ (forall t s, unique_keys t -> unique_keys (exec t s))
  /\ (forall t r t' i a,
        upsert t r = Ok t' -> item_id r = Some i -> timestamp r = Some a ->
        rows_at t' i a = [assign_id t r])
  /\ (forall t r, not_null_ok r = true -> check_ok r = true ->
        exists t', upsert t r = Ok t').
Proof.
  split; [|split; [|split]]; [| | |exact upsert_succeeds].
  - apply invariant_reachable.
    + exact unique_keys_insert.
    + exact unique_keys_upsert.
    + exact unique_keys_delete.
    + intros i a. cbn. lia.
  - intros t s. apply invariant_exec.
    + exact unique_keys_insert.
    + exact unique_keys_upsert.
    + exact unique_keys_delete.
  - intros t r t' i a E Hi Ha.
    apply upsert_ok_inv in E. destruct E as (_ & _ & ->).
    assert (K : has_key i a (assign_id t r) = true).
    { rewrite has_key_assign_id. unfold has_key. rewrite Hi, Ha.
      cbn [opt_eqb]. rewrite !Z.eqb_refl. reflexivity. }
    rewrite rows_at_app, rows_at_single, K, (rows_at_without t _ i a K).
    reflexivity.
Qed.

Lemma unique_item_anchor_witness :
  rows_at (exec (exec [] (Upsert Examples.first_synthesis))
             (Upsert Examples.second_synthesis)) 2 1700000100
  = [with_id Examples.second_synthesis 2]
  /\ unique_keys (exec (exec [] (Upsert Examples.first_synthesis))
                    (Upsert Examples.second_synthesis)).
Proof.
  destruct unique_item_anchor as (A & B & C & _). split.
  - apply (C [with_id Examples.first_synthesis 1] Examples.second_synthesis
             _ 2 1700000100); reflexivity.
  - apply A. apply reach_exec, reach_exec, reach_empty.
Defined.

(** X3. A plain insert of a row whose (item_id, anchor) is already stored
    aborts: the UNIQUE constraint has no conflict clause. *)
Lemma insert_present_key (t : table) (r : row) (i a : Z) :
  item_id r = Some i -> timestamp r = Some a -> rows_at t i a <> [] ->
  exists e, insert t r = Err e.
Proof.
  intros Hi Ha Hrows. unfold insert.
  destruct (not_null_ok (assign_id t r)); cbn [negb]; [|eauto].
  destruct (check_ok (assign_id t r)); cbn [negb]; [|eauto].
  destruct (existsb _ t) eqn:Hex; [eauto|].
  exfalso. apply Hrows. apply (rows_at_absent t (assign_id t r) i a Hex).
  rewrite has_key_assign_id. unfold has_key. rewrite Hi, Ha.
  cbn [opt_eqb]. rewrite !Z.eqb_refl. reflexivity.
Qed.

(** ** Retention *)

Lemma expired_some (c a : Z) (r : row) :
  timestamp r = Some a -> expired c r = (a <? c).
Proof.
  intros E. unfold expired. rewrite E. cbn [col].
  rewrite SqlFacts.sql_lt_int, SqlFacts.truth_of_bool.
  destruct (a <? c); reflexivity.
Qed.

Lemma delete_expired_In (now : Z) (t : table) (r : row) (a : Z) :
  In r (delete_expired now t) -> timestamp r = Some a ->
  now - retention_window <= a.
Proof.
  unfold delete_expired. intros Hin Ha. apply filter_In in Hin.
  destruct Hin as [_ Hkeep]. rewrite (expired_some _ a r Ha) in Hkeep.
  apply negb_true_iff, Z.ltb_ge in Hkeep. exact Hkeep.
Qed.

(** C8. After a successful update cycle at time [now], whatever the table
    was before it, no derived row has an anchor older than [now - R], with
    R = 456 days. *)
Theorem retention_after_cycle (now : Z) (t t' : table) (rs : list row) :
  update_cycle now t rs = Ok t' ->
  forall r a, In r t' -> timestamp r = Some a ->
              now - 456 * 86400 <= a.
Proof.
  unfold update_cycle. intros E r a Hin Ha.
  destruct (upsert_all t rs) as [t1|e]; [|discriminate E].
  injection E as <-. exact (delete_expired_In now t1 r a Hin Ha).
Qed.

Lemma retention_after_cycle_witness :
  update_cycle 1700000100 [with_id Examples.stale_synthesis 1]
    [Examples.second_synthesis]
  = Ok [with_id Examples.second_synthesis 2]
  /\ forall r a,
       In r [with_id Examples.second_synthesis 2] -> timestamp r = Some a ->
       1700000100 - 456 * 86400 <= a.
Proof.
  split; [reflexivity|].
  apply (retention_after_cycle 1700000100
           [with_id Examples.stale_synthesis 1]
           [with_id Examples.second_synthesis 2]
           [Examples.second_synthesis]).
  reflexivity.
Defined.

(** ** Calendar ranges *)

Lemma check_between (c : option Z) (lo hi : Z) :
  not_null c = true ->
  check_passes (sql_between (col c) (VInt lo) (VInt hi)) = in_range c lo hi.
Proof.
  destruct c as [v|]; cbn [not_null col in_range]; [intros _|discriminate].
  unfold sql_between, check_passes.
  rewrite SqlFacts.sql_ge_int, SqlFacts.sql_le_int, SqlFacts.sql_and_bool,
    SqlFacts.truth_of_bool.
  destruct ((lo <=? v) && (v <=? hi)); reflexivity.
Qed.

Lemma in_range_not_null (c : option Z) (lo hi : Z) :
  in_range c lo hi = true -> not_null c = true.
Proof. destruct c; [reflexivity | discriminate]. Qed.

(** On a row that passes NOT NULL, the CHECK constraints are the calendar
    ranges. *)
Lemma check_ok_calendar (r : row) :
  not_null_ok r = true -> check_ok r = calendar_ok r.
Proof.
  unfold not_null_ok, check_ok, calendar_ok. rewrite !andb_true_iff.
  intros ((((((((((_ & _) & Hmi) & Hh) & Hd) & Hmo) & _) & Hwd) & _) & _) & _).
  rewrite !check_between by assumption. reflexivity.
Qed.

Lemma constraints_calendar (r : row) :
  not_null_ok r = true -> check_ok r = true -> calendar_ok r = true.
Proof. intros Hn Hc. rewrite <- (check_ok_calendar r Hn). exact Hc. Qed.

Lemma calendar_violation (r : row) :
  calendar_ok r = false -> not_null_ok r = false \/ check_ok r = false.
Proof.
  intros H. destruct (not_null_ok r) eqn:Hn; [right|left; reflexivity].
  rewrite (check_ok_calendar r Hn). exact H.
Qed.

Lemma calendar_assign_id (t : table) (r : row) :
  calendar_ok (assign_id t r) = calendar_ok r.
Proof. unfold assign_id. destruct (id r); reflexivity. Qed.

Lemma in_range_inv (c : option Z) (lo hi : Z) :
  in_range c lo hi = true -> exists v, c = Some v /\ lo <= v <= hi.
Proof.
  destruct c as [v|]; cbn [in_range]; [|discriminate].
  rewrite andb_true_iff, !Z.leb_le. eauto.
Qed.

Lemma calendar_ok_ranges (r : row) :
  calendar_ok r = true ->
  exists mi h d mo wd,
    minute r = Some mi /\ hour r = Some h /\ day r = Some d
    /\ month r = Some mo /\ weekday r = Some wd
    /\ 0 <= mi <= 59 /\ 0 <= h <= 23 /\ 1 <= d <= 31
    /\ 1 <= mo <= 12 /\ 0 <= wd <= 6.
Proof.
  unfold calendar_ok. rewrite !andb_true_iff.
  intros ((((Hmi & Hh) & Hd) & Hmo) & Hwd).
  apply in_range_inv in Hmi, Hh, Hd, Hmo, Hwd.
  destruct Hmi as (mi & ? & ?), Hh as (h & ? & ?), Hd as (d & ? & ?),
    Hmo as (mo & ? & ?), Hwd as (wd & ? & ?).
  exists mi, h, d, mo, wd. repeat split; tauto.
Qed.

Lemma all_calendar_ok_insert (t : table) (r : row) (t' : table) :
  all_calendar_ok t -> insert t r = Ok t' -> all_calendar_ok t'.
Proof.
  intros A E x Hx. apply insert_ok_inv in E.
  destruct E as (Hn & Hc & _ & ->).
  apply in_app_or in Hx. destruct Hx as [Hx|[<-|[]]]; [exact (A x Hx)|].
  exact (constraints_calendar _ Hn Hc).
Qed.

Lemma all_calendar_ok_upsert (t : table) (r : row) (t' : table) :
  all_calendar_ok t -> upsert t r = Ok t' -> all_calendar_ok t'.
Proof.
  intros A E x Hx. apply upsert_ok_inv in E. destruct E as (Hn & Hc & ->).
  apply in_app_or in Hx. destruct Hx as [Hx|[<-|[]]].
  - apply filter_In in Hx. exact (A x (proj1 Hx)).
  - exact (constraints_calendar _ Hn Hc).
Qed.

Lemma all_calendar_ok_delete (now : Z) (t : table) :
  all_calendar_ok t -> all_calendar_ok (delete_expired now t).
Proof.
  intros A x Hx. unfold delete_expired in Hx. apply filter_In in Hx.
  exact (A x (proj1 Hx)).
Qed.

Lemma insert_violation (t : table) (r : row) :
  calendar_ok r = false ->
  (exists e, insert t r = Err e) /\ insert_into t r = t.
Proof.
  intros Hbad. rewrite <- (calendar_assign_id t r) in Hbad.
  apply calendar_violation in Hbad.
  assert (E : exists e, insert t r = Err e).
  { unfold insert. destruct Hbad as [-> | Hc]; cbn [negb]; [eauto|].
    destruct (not_null_ok (assign_id t r)); cbn [negb]; [|eauto].
    rewrite Hc. cbn [negb]. eauto. }
  split; [exact E|]. destruct E as [e E]. unfold insert_into. rewrite E.
  reflexivity.
Qed.

(** C10. Every row of every table built by inserts has minute in [0,59],
    hour in [0,23], day in [1,31], month in [1,12] and weekday in [0,6];
    an insert of a row that violates one of these ranges fails and leaves
    the table as it was. *)
Theorem calendar_ranges :
  (forall t, populated t -> forall r, In r t ->
     exists mi h d mo wd,
       minute r = Some mi /\ hour r = Some h /\ day r = Some d
       /\ month r = Some mo /\ weekday r = Some wd
       /\ 0 <= mi <= 59 /\ 0 <= h <= 23 /\ 1 <= d <= 31
       /\ 1 <= mo <= 12 /\ 0 <= wd <= 6)
  /\ (forall t r, calendar_ok r = false ->
        (exists e, insert t r = Err e) /\ insert_into t r = t).
Proof.
  split.
  - intros t R r Hin. apply calendar_ok_ranges.
    revert r Hin. change (all_calendar_ok t).
    induction R as [|t r0 R IH]; [intros r []|].
    unfold insert_into. destruct (insert t r0) as [t'|e] eqn:E; cbn [after].
    + exact (all_calendar_ok_insert t r0 t' IH E).
    + exact IH.
  - intros t r Hbad. exact (insert_violation t r Hbad).
Qed.

(** The same holds in every state reachable by the updater's statements,
    and for its upsert. *)
Lemma calendar_ranges_reachable (t : table) :
  reachable t -> all_calendar_ok t.
Proof.
  revert t. apply invariant_reachable.
  - exact all_calendar_ok_insert.
  - exact all_calendar_ok_upsert.
  - exact all_calendar_ok_delete.
  - intros r [].
Qed.

Lemma upsert_violation (t : table) (r : row) :
  calendar_ok r = false ->
  (exists e, upsert t r = Err e) /\ exec t (Upsert r) = t.
Proof.
  intros Hbad. rewrite <- (calendar_assign_id t r) in Hbad.
  apply calendar_violation in Hbad.
  assert (E : exists e, upsert t r = Err e).
  { unfold upsert. destruct Hbad as [-> | Hc]; cbn [negb]; [eauto|].
    destruct (not_null_ok (assign_id t r)); cbn [negb]; [|eauto].
    rewrite Hc. cbn [negb]. eauto. }
  split; [exact E|]. destruct E as [e E]. cbn [exec]. rewrite E. reflexivity.
Qed.

Lemma calendar_ranges_witness :
  insert [with_id Examples.first_synthesis 1]
    (Examples.with_minute (Examples.at_anchor Examples.second_synthesis 1700000400)
       (Some 60))
  = Err CheckViolation
  /\ insert_into [with_id Examples.first_synthesis 1]
       (Examples.with_minute
          (Examples.at_anchor Examples.second_synthesis 1700000400)
          (Some 60))
     = [with_id Examples.first_synthesis 1]
  /\ insert [with_id Examples.first_synthesis 1]
       (Examples.with_minute (Examples.at_anchor Examples.second_synthesis 1700000400)
          (Some 20))
     = Ok [with_id Examples.first_synthesis 1;
           with_id (Examples.with_minute
                      (Examples.at_anchor Examples.second_synthesis 1700000400)
                      (Some 20)) 2].
Proof.
  destruct calendar_ranges as (_ & B).
  split; [reflexivity|]. split; [|reflexivity].
  apply (B [with_id Examples.first_synthesis 1]
           (Examples.with_minute
              (Examples.at_anchor Examples.second_synthesis 1700000400)
              (Some 60))).
  reflexivity.
Defined.

(* ================================================================== *)
(** * Further properties of the generated columns *)
(* ================================================================== *)

(** ** Combined price and margin *)

Lemma avg5m_price_both_positive (r : row) (b s : Z) :
  buy_price r = Some b -> sell_price r = Some s ->
  0 < b -> 0 < s -> b + s <= max_int64 ->
  avg5m_price r = VInt ((b + s) / 2).
Proof.
  intros Eb Es Hb Hs Hfit. unfold avg5m_price, sql_case.
  rewrite both_positive_guard, Eb, Es. cbn [col].
  replace (0 <? b) with true by (symmetry; apply Z.ltb_lt; assumption).
  replace (0 <? s) with true by (symmetry; apply Z.ltb_lt; assumption).
  cbn [andb]. rewrite SqlFacts.sql_add_int by (unfold min_int64; lia).
  rewrite SqlFacts.sql_div_pos by lia. reflexivity.
Qed.

(** X6. The combined interval price of two positive prices lies between them,
    and is the buy price when the two are equal. *)
Theorem avg5m_price_between (r : row) (b s : Z) :
  buy_price r = Some b -> sell_price r = Some s ->
  0 < b -> 0 < s -> b + s <= max_int64 ->
  exists p, avg5m_price r = VInt p
            /\ Z.min b s <= p <= Z.max b s
            /\ (b = s -> p = b).
Proof.
  intros Eb Es Hb Hs Hfit. exists ((b + s) / 2).
  split; [apply (avg5m_price_both_positive r b s); assumption|].
  assert (H2 : 2 * ((b + s) / 2) <= b + s < 2 * ((b + s) / 2) + 2).
  { pose proof (Z.div_mod (b + s) 2 ltac:(lia)).
    pose proof (Z.mod_pos_bound (b + s) 2 ltac:(lia)). lia. }
  split; lia.
Qed.

Lemma avg5m_price_between_witness :
  exists p, avg5m_price Samples.full_row = VInt p
            /\ Z.min 90 110 <= p <= Z.max 90 110
            /\ (90 = 110 -> p = 90).
Proof.
  apply (avg5m_price_between Samples.full_row 90 110);
    try reflexivity; unfold max_int64; lia.
Defined.

Lemma avg5m_margin_both_positive (r : row) (b s : Z) :
  buy_price r = Some b -> sell_price r = Some s ->
  0 < b <= max_int64 -> 0 < s < 2 ^ 52 ->
  avg5m_margin r = VInt (s - b - s / 100).
Proof.
  intros Eb Es Hb Hs. unfold avg5m_margin, sql_case.
  rewrite both_positive_guard, Eb, Es. cbn [col].
  replace (0 <? b) with true by (symmetry; apply Z.ltb_lt; lia).
  replace (0 <? s) with true by (symmetry; apply Z.ltb_lt; lia).
  cbn [andb].
  assert (Hq : 0 <= s / 100) by (apply Z.div_pos; lia).
  assert (Hqs : 100 * (s / 100) <= s) by (apply Z.mul_div_le; lia).
  rewrite SqlFacts.cast_mul_0_01 by lia.
  rewrite SqlFacts.sql_sub_int by (unfold min_int64, max_int64 in *; lia).
  rewrite SqlFacts.sql_sub_int by (unfold min_int64, max_int64 in *; lia).
  reflexivity.
Qed.

(** X7. For every pair of positive prices (sell below 2^52) the trade margin is
    sell - buy - floor(sell / 100), whatever the size of the sell price: the
    5,000,000 cap of the tax is not applied.  It never exceeds the spread
    sell - buy. *)
Theorem avg5m_margin_formula (r : row) (b s : Z) :
  buy_price r = Some b -> sell_price r = Some s ->
  0 < b <= max_int64 -> 0 < s < 2 ^ 52 ->
  avg5m_margin r = VInt (s - b - s / 100)
  /\ s - b - s / 100 <= s - b
  /\ (500000100 <= s -> s - b - s / 100 < s - b - 5000000).
Proof.
  intros Eb Es Hb Hs.
  split; [apply (avg5m_margin_both_positive r b s); assumption|].
  assert (Hq : 0 <= s / 100) by (apply Z.div_pos; lia).
  split; [lia|]. intros Hbig.
  assert (5000001 <= s / 100) by (apply Z.div_le_lower_bound; lia). lia.
Qed.

Lemma avg5m_margin_formula_witness :
  avg5m_margin Samples.dear_row = VInt (710000000 - 690000000 - 710000000 / 100)
  /\ 710000000 - 690000000 - 710000000 / 100 <= 710000000 - 690000000
  /\ (500000100 <= 710000000 ->
      710000000 - 690000000 - 710000000 / 100
      < 710000000 - 690000000 - 5000000).
Proof.
  apply (avg5m_margin_formula Samples.dear_row 690000000 710000000);
    try reflexivity; unfold max_int64; lia.
Defined.

(** ** Realtime spread margin *)

(** X10. The spread margin of a row: max - min - floor(average / 100), without
    cap, when the tick count is positive and the three statistics are
    present; NULL when the count is positive and a statistic is missing;
    zero when the count is zero, negative or NULL, whatever the statistics. *)
Theorem rt_margin_cases (r : row) :
  (forall n lo hi a,
     rt_count r = Some n -> rt_min_price r = Some lo ->
     rt_max_price r = Some hi -> rt_avg_price r = Some a ->
     0 < n -> 0 <= lo <= hi -> hi <= max_int64 -> 0 <= a < 2 ^ 52 ->
     rt_margin r = VInt (hi - lo - a / 100))
  /\ (forall n, rt_count r = Some n -> 0 < n ->
        rt_min_price r = None \/ rt_max_price r = None \/ rt_avg_price r = None ->
        rt_margin r = VNull)
  /\ ((forall n, rt_count r = Some n -> n <= 0) -> rt_margin r = VInt 0).
Proof.
  split; [|split].
  - intros n lo hi a. apply rt_margin_positive_count.
  - intros n En Hn Hmiss. unfold rt_margin. rewrite En. cbn [col].
    rewrite SqlFacts.sql_gt_int, SqlFacts.sql_case_bool.
    replace (0 <? n) with true by (symmetry; apply Z.ltb_lt; assumption).
    destruct Hmiss as [H|[H|H]]; rewrite H; cbn [col].
    + destruct (col (rt_max_price r)); reflexivity.
    + reflexivity.
    + cbn [sql_mul arith cast_integer].
      destruct (sql_sub (col (rt_max_price r)) (col (rt_min_price r)));
        reflexivity.
  - apply rt_margin_no_ticks.
Qed.

Lemma rt_margin_cases_witness :
  rt_margin Samples.dear_row = VInt (710000000 - 690000000 - 700000000 / 100)
  /\ rt_margin (Examples.ticks (Some 2) (Some 95) None (Some 100)) = VNull
  /\ rt_margin (Examples.ticks (Some 0) (Some 95) (Some 105) (Some 100)) = VInt 0.
Proof.
  split; [|split].
  - apply (proj1 (rt_margin_cases Samples.dear_row) 3 690000000 710000000 700000000);
      try reflexivity; unfold max_int64; lia.
  - apply (proj1 (proj2 (rt_margin_cases
                           (Examples.ticks (Some 2) (Some 95) None (Some 100)))) 2);
      [reflexivity | lia | right; left; reflexivity].
  - apply (proj2 (proj2 (rt_margin_cases
                           (Examples.ticks (Some 0) (Some 95) (Some 105) (Some 100))))).
    intros n Hn. injection Hn as <-. lia.
Defined.

(** ** Volumes and traded values *)

(** X11. [wiki_volume / 288], the snapshot volume per five-minute bucket of a
    day: NULL without a snapshot volume; otherwise the quotient truncated
    toward zero, so that for a non-negative volume 288 buckets never add up
    to more than the daily volume and fall short of it by less than 288. *)
Theorem wiki_avg_volume_cases (r : row) :
  (wiki_volume r = None -> wiki_avg_volume r = VNull)
  /\ (forall v, wiki_volume r = Some v -> min_int64 <= v <= max_int64 ->
        wiki_avg_volume r = VInt (Z.quot v 288)
        /\ (0 <= v -> 288 * Z.quot v 288 <= v < 288 * Z.quot v 288 + 288)
        /\ (v <= 0 -> v <= 288 * Z.quot v 288 < v + 288)).
Proof.
  split.
  - intros E. unfold wiki_avg_volume. rewrite E. reflexivity.
  - intros v E Hv. unfold wiki_avg_volume. rewrite E. cbn [col sql_div].
    pose proof (Z.quot_rem' v 288) as Hqr.
    assert (Hr : 0 <= v -> 0 <= Z.rem v 288 < 288)
      by (intros; apply Z.rem_bound_pos; lia).
    assert (Hr' : v <= 0 -> - 288 < Z.rem v 288 <= 0)
      by (intros; pose proof (Z.rem_bound_pos_neg v 288 ltac:(lia) ltac:(lia)); lia).
    assert (Hin : in_int64 (Z.quot v 288) = true).
    { apply SqlFacts.in_int64_iff. unfold min_int64, max_int64 in *.
      destruct (Z_le_gt_dec 0 v); [specialize (Hr ltac:(lia))|specialize (Hr' ltac:(lia))]; lia. }
    change (288 =? 0) with false. cbn iota. rewrite Hin.
    split; [reflexivity|]. split; intros H0; [specialize (Hr H0)|specialize (Hr' H0)]; lia.
Qed.

Lemma wiki_avg_volume_cases_witness :
  wiki_avg_volume Samples.full_row = VInt (Z.quot 28800 288)
  /\ (0 <= 28800 -> 288 * Z.quot 28800 288 <= 28800 < 288 * Z.quot 28800 288 + 288)
  /\ (28800 <= 0 -> 28800 <= 288 * Z.quot 28800 288 < 28800 + 288).
Proof.
  apply (proj2 (wiki_avg_volume_cases Samples.full_row) 28800);
    [reflexivity | unfold min_int64, max_int64; lia].
Defined.

Lemma sql_mul_null_r (v : value) : sql_mul v VNull = VNull.
Proof. destruct v; reflexivity. Qed.

Lemma sql_mul_int (x y : Z) :
  min_int64 <= x * y <= max_int64 -> sql_mul (VInt x) (VInt y) = VInt (x * y).
Proof.
  intros H. unfold sql_mul, arith.
  rewrite (proj2 (SqlFacts.in_int64_iff (x * y)) H). reflexivity.
Qed.

(** X12. [avg5m_price * avg5m_volume]: NULL as soon as one of the two interval
    volumes is absent, even though the combined price is never NULL; with
    both prices positive and both volumes present and non-negative it is
    floor((buy + sell) / 2) * (buy_volume + sell_volume). *)
Theorem avg5m_total_value_cases (r : row) :
  (buy_volume r = None \/ sell_volume r = None ->
   avg5m_total_value r = VNull)
  /\ (forall b s bv sv,
        buy_price r = Some b -> sell_price r = Some s ->
        buy_volume r = Some bv -> sell_volume r = Some sv ->
        0 < b -> 0 < s -> 0 <= bv -> 0 <= sv ->
        b + s <= max_int64 -> (b + s) / 2 * (bv + sv) <= max_int64 ->
        bv + sv <= max_int64 ->
        avg5m_total_value r = VInt ((b + s) / 2 * (bv + sv))).
Proof.
  split.
  - intros H. unfold avg5m_total_value.
    rewrite (avg5m_volume_null r H). rewrite sql_mul_null_r. reflexivity.
  - intros b s bv sv Eb Es Ebv Esv Hb Hs Hbv Hsv Hfit Hprod Hvol.
    unfold avg5m_total_value.
    rewrite (avg5m_price_both_positive r b s Eb Es Hb Hs Hfit).
    rewrite (avg5m_volume_both r bv sv Ebv Esv)
      by (unfold min_int64; lia).
    assert (0 <= (b + s) / 2) by (apply Z.div_pos; lia).
    rewrite sql_mul_int by (unfold min_int64; nia). reflexivity.
Qed.

Lemma avg5m_total_value_cases_witness :
  avg5m_total_value Samples.full_row = VInt ((90 + 110) / 2 * (40 + 60))
  /\ avg5m_total_value (Examples.volumes (Some 5) None) = VNull.
Proof.
  split.
  - apply (proj2 (avg5m_total_value_cases Samples.full_row) 90 110 40 60);
      try reflexivity; unfold max_int64; try lia.
    apply Z.leb_le. reflexivity.
  - apply (proj1 (avg5m_total_value_cases (Examples.volumes (Some 5) None))).
    right. reflexivity.
Defined.

(** ** Relative price gaps *)

Lemma price_ratio_sell_wiki_value_gen (r : row) (w s : Z) :
  wiki_price r = Some w -> 0 < w <= max_int64 ->
  sell_price r = Some s -> 0 <= s <= max_int64 ->
  price_ratio_sell_wiki r
  = VReal (Real.div (Real.of_int (s - w)) (Real.of_int w)).
Proof.
  intros Ew Hw Es Hs.
  unfold price_ratio_sell_wiki, sql_case. rewrite positive_guard, Ew, Es.
  replace (0 <? w) with true by (symmetry; apply Z.ltb_lt; lia).
  cbn [col]. rewrite ratio_int; [reflexivity | | |]; lia.
Qed.

Lemma price_ratio_sell_wiki_value_witness :
  price_ratio_sell_wiki (Examples.priced (Some 100) (Some 90) (Some 110))
  = VReal Real.lit_0_10.
Proof.
  apply (price_ratio_sell_wiki_value
           (Examples.priced (Some 100) (Some 90) (Some 110)) 100 110);
    try reflexivity; unfold max_int64; lia.
Defined.

(** X14. A gap whose guard passes while one of its operands is NULL is NULL:
    the ELSE 0 of the CASE is not reached. *)
Theorem price_ratio_null (r : row) (w : Z) :
  wiki_price r = Some w -> 0 < w ->
  (buy_price r = None -> price_ratio_buy_wiki r = VNull)
  /\ (sell_price r = None -> price_ratio_sell_wiki r = VNull)
  /\ (sell_price r = None ->
      forall b, buy_price r = Some b -> 0 < b ->
                price_ratio_sell_buy r = VNull).
Proof.
  intros Ew Hw.
  assert (G : (0 <? w) = true) by (apply Z.ltb_lt; assumption).
  split; [|split].
  - intros Eb. unfold price_ratio_buy_wiki, sql_case.
    rewrite positive_guard, Ew, Eb, G. reflexivity.
  - intros Es. unfold price_ratio_sell_wiki, sql_case.
    rewrite positive_guard, Ew, Es, G. reflexivity.
  - intros Es b Eb Hb. unfold price_ratio_sell_buy, sql_case.
    rewrite Ew, Eb, Es. cbn [col].
    rewrite !SqlFacts.sql_gt_int, SqlFacts.sql_and_bool, SqlFacts.truth_of_bool, G.
    replace (0 <? b) with true by (symmetry; apply Z.ltb_lt; assumption).
    reflexivity.
Qed.

Lemma price_ratio_null_witness :
  price_ratio_buy_wiki (Examples.priced (Some 100) None (Some 110)) = VNull
  /\ price_ratio_sell_buy (Examples.priced (Some 100) (Some 90) None) = VNull.
Proof.
  split.
  - apply (proj1 (price_ratio_null
                    (Examples.priced (Some 100) None (Some 110)) 100
                    eq_refl eq_refl)).
    reflexivity.
  - apply (proj2 (proj2 (price_ratio_null
                           (Examples.priced (Some 100) (Some 90) None) 100
                           eq_refl eq_refl)) eq_refl 90);
      reflexivity.
Defined.

Lemma of_int_pos_finite (w : Z) :
  0 < w <= 2 ^ 63 ->
  exists (m : positive) (e : Z), Real.of_int w = S754_finite false m e.
Proof.
  intros Hw. destruct w as [|p|p]; try lia.
  unfold Real.of_int, binary_normalize.
  destruct (Z_lt_le_dec (Zpos p) (2 ^ 53)) as [Hlt|Hge].
  - destruct (RealFacts.binary_round_small false p Hlt) as (m & E & _). eauto.
  - destruct (RealFacts.binary_round_large false p) as (m & e & E & _); [lia|].
    eauto.
Qed.

Lemma zero_ratio (x w : Z) :
  0 <= x <= max_int64 -> 0 < w <= max_int64 ->
  sql_div (cast_real (sql_sub (VInt x) (VInt x))) (VInt w) = VReal Real.zero.
Proof.
  intros Hx Hw. rewrite ratio_int by assumption.
  rewrite Z.sub_diag.
  destruct (of_int_pos_finite w) as (m & e & E);
    [unfold max_int64 in Hw; lia|].
  rewrite E. reflexivity.
Qed.

(** X15. Equal prices give a gap of exactly 0.0: a buy (sell) price equal to a
    positive reference price for the gap to the reference, a sell price
    equal to a positive buy price for the sell/buy gap. *)
Theorem price_ratio_equal_prices (r : row) (w : Z) :
  wiki_price r = Some w -> 0 < w <= max_int64 ->
  (buy_price r = Some w -> price_ratio_buy_wiki r = VReal Real.zero)
  /\ (sell_price r = Some w -> price_ratio_sell_wiki r = VReal Real.zero)
  /\ (forall b, buy_price r = Some b -> sell_price r = Some b ->
                0 < b <= max_int64 ->
                price_ratio_sell_buy r = VReal Real.zero).
Proof.
  intros Ew Hw.
  assert (G : (0 <? w) = true) by (apply Z.ltb_lt; lia).
  split; [|split].
  - intros Eb. unfold price_ratio_buy_wiki, sql_case.
    rewrite positive_guard, Ew, Eb, G. cbn [col].
    rewrite zero_ratio by lia. reflexivity.
  - intros Es. unfold price_ratio_sell_wiki, sql_case.
    rewrite positive_guard, Ew, Es, G. cbn [col].
    rewrite zero_ratio by lia. reflexivity.
  - intros b Eb Es Hb. unfold price_ratio_sell_buy, sql_case.
    rewrite Ew, Eb, Es. cbn [col].
    rewrite !SqlFacts.sql_gt_int, SqlFacts.sql_and_bool, SqlFacts.truth_of_bool, G.
    replace (0 <? b) with true by (symmetry; apply Z.ltb_lt; lia).
    cbn [andb]. rewrite zero_ratio by lia. reflexivity.
Qed.

Lemma price_ratio_equal_prices_witness :
  price_ratio_buy_wiki (Examples.priced (Some 100) (Some 100) (Some 110))
  = VReal Real.zero
  /\ price_ratio_sell_buy (Examples.priced (Some 100) (Some 95) (Some 95))
     = VReal Real.zero.
Proof.
  split.
  - apply (proj1 (price_ratio_equal_prices
                    (Examples.priced (Some 100) (Some 100) (Some 110)) 100
                    eq_refl ltac:(unfold max_int64; lia))).
    reflexivity.
  - apply (proj2 (proj2 (price_ratio_equal_prices
                           (Examples.priced (Some 100) (Some 95) (Some 95)) 100
                           eq_refl ltac:(unfold max_int64; lia))) 95);
      try reflexivity. unfold max_int64. lia.
Defined.

(* ================================================================== *)
(** * Further properties of inserts *)
(* ================================================================== *)

Import Samples.

(** ** Primary key *)



Lemma assign_id_some (t : table) (r : row) :
  id (assign_id t r) = Some (rowid (assign_id t r)).
Proof.
  unfold assign_id. destruct (id r) as [i|] eqn:E.
  - unfold rowid. rewrite E. reflexivity.
  - reflexivity.
Qed.

Lemma same_id_rowid (x y : row) :
  id x = Some (rowid x) -> id y = Some (rowid y) ->
  rowid x = rowid y -> same_id x y = true.
Proof.
  intros Ex Ey E. unfold same_id. rewrite Ex, Ey, E. cbn [opt_eqb].
  apply Z.eqb_refl.
Qed.

Lemma ids_ok_insert (t : table) (r : row) (t' : table) :
  ids_ok t -> insert t r = Ok t' -> ids_ok t'.
Proof.
  intros [Hnd Hid] E. apply insert_ok_inv in E.
  destruct E as (_ & _ & Hex & ->). split.
  - rewrite map_app. apply NoDup_app; [exact Hnd | repeat constructor; intros [] |].
    intros i Hi [<-|[]]. apply in_map_iff in Hi. destruct Hi as (x & Ex & Hx).
    assert (same_id x (assign_id t r) = true)
      by (apply same_id_rowid; auto using assign_id_some).
    assert (Hx' : existsb (fun x => same_id x (assign_id t r)
                                    || same_key x (assign_id t r)) t = true).
    { apply existsb_exists. exists x. split; [exact Hx|].
      apply orb_true_iff. left. assumption. }
    rewrite Hx' in Hex. discriminate Hex.
  - intros x Hx. apply in_app_or in Hx. destruct Hx as [Hx|[<-|[]]].
    + exact (Hid x Hx).
    + apply assign_id_some.
Qed.

(** X1. Every table built by inserts has a primary key: each row has a
    non-NULL id and no two rows share one, whether the ids were supplied or
    assigned by the table. *)
Theorem populated_primary_key (t : table) :
  populated t -> ids_ok t.
Proof.
  intros R. induction R as [|t r R IH].
  - split; [constructor | intros r []].
  - unfold insert_into. destruct (insert t r) as [t'|e] eqn:E; cbn [after].
    + exact (ids_ok_insert t r t' IH E).
    + exact IH.
Qed.

Lemma populated_primary_key_witness :
  populated two_buckets /\ ids_ok two_buckets.
Proof.
  assert (P : populated two_buckets)
    by (apply populated_insert, populated_insert, populated_empty).
  split; [exact P | exact (populated_primary_key two_buckets P)].
Defined.

(** ** Inserting a new bucket *)




Lemma insert_present_key_witness :
  exists e, insert two_buckets Examples.first_synthesis = Err e.
Proof.
  apply (insert_present_key two_buckets Examples.first_synthesis 2 1700000100);
    [reflexivity | reflexivity | discriminate].
Defined.

(** X4. After a successful insert the stored row is the only row of its
    (item_id, timestamp), and the rows of every other key are untouched. *)
Theorem insert_lookup (t : table) (r : row) (t' : table) :
  insert t r = Ok t' ->
  exists i a,
    item_id r = Some i /\ timestamp r = Some a
    /\ rows_at t' i a = [assign_id t r]
    /\ forall j b, (j, b) <> (i, a) -> rows_at t' j b = rows_at t j b.
Proof.
  intros E. apply insert_ok_inv in E. destruct E as (Hn & _ & Hex & ->).
  destruct (constraints_assign_id t r) as [En _]. rewrite En in Hn.
  unfold not_null_ok in Hn. rewrite !andb_true_iff in Hn.
  destruct Hn as ((((((((((Hi & Ha) & _) & _) & _) & _) & _) & _) & _) & _) & _).
  destruct (item_id r) as [i|] eqn:Ei; [|discriminate Hi].
  destruct (timestamp r) as [a|] eqn:Ea; [|discriminate Ha].
  exists i, a. split; [reflexivity|]. split; [reflexivity|].
  assert (K : has_key i a (assign_id t r) = true).
  { rewrite has_key_assign_id. unfold has_key. rewrite Ei, Ea.
    cbn [opt_eqb]. rewrite !Z.eqb_refl. reflexivity. }
  split.
  - rewrite rows_at_app, rows_at_single, K, (rows_at_absent t _ i a Hex K).
    reflexivity.
  - intros j b Hne. rewrite rows_at_app, rows_at_single.
    replace (has_key j b (assign_id t r)) with false; [apply app_nil_r|].
    symmetry. apply not_true_is_false. intros K'.
    rewrite has_key_assign_id in K'. apply has_key_inv in K'.
    destruct K' as [Kj Kb]. apply Hne. congruence.
Qed.

Lemma insert_lookup_witness :
  exists i a,
    item_id next_bucket = Some i /\ timestamp next_bucket = Some a
    /\ rows_at two_buckets i a
       = [assign_id (insert_into [] Examples.second_synthesis) next_bucket]
    /\ forall j b, (j, b) <> (i, a) ->
                   rows_at two_buckets j b
                   = rows_at (insert_into [] Examples.second_synthesis) j b.
Proof.
  apply (insert_lookup (insert_into [] Examples.second_synthesis)
           next_bucket two_buckets).
  reflexivity.
Defined.

(** ** Which constraint rejects a row *)



(* ================================================================== *)
(** * The views *)
(* ================================================================== *)

Import Views.

(** ** Groups *)

Section GroupFacts.
Variable K : Type.
Variable K_eq_dec : forall a b : K, {a = b} + {a <> b}.
Variable key : row -> K.

Lemma in_group_iff (k : K) (r : row) :
  in_group K K_eq_dec key k r = true <-> key r = k.
Proof.
  unfold in_group. destruct (K_eq_dec (key r) k); split; congruence.
Qed.

Lemma group_keys_NoDup (t : table) : NoDup (group_keys K K_eq_dec key t).
Proof. apply NoDup_nodup. Qed.

Lemma group_keys_In (t : table) (k : K) :
  In k (group_keys K K_eq_dec key t) <-> exists r, In r t /\ key r = k.
Proof.
  unfold group_keys. rewrite nodup_In, in_map_iff.
  split; intros (r & H1 & H2); exists r; auto.
Qed.

Lemma group_In (t : table) (k : K) (r : row) :
  In r (group K K_eq_dec key t k) <-> In r t /\ key r = k.
Proof. unfold group. rewrite filter_In, in_group_iff. reflexivity. Qed.

Lemma group_sizes_cons_out (r : row) (t : table) (ks : list K) :
  ~ In (key r) ks ->
  group_sizes K K_eq_dec key (r :: t) ks = group_sizes K K_eq_dec key t ks.
Proof.
  induction ks as [|k ks IH]; intros Hout; [reflexivity|].
  cbn [group_sizes fold_right]. fold (group_sizes K K_eq_dec key (r :: t) ks).
  fold (group_sizes K K_eq_dec key t ks).
  rewrite IH by (intros H; apply Hout; right; exact H).
  unfold group. cbn [filter].
  replace (in_group K K_eq_dec key k r) with false; [reflexivity|].
  symmetry. apply not_true_is_false. intros H. apply in_group_iff in H.
  apply Hout. left. congruence.
Qed.

Lemma group_sizes_cons_in (r : row) (t : table) (ks : list K) :
  NoDup ks -> In (key r) ks ->
  group_sizes K K_eq_dec key (r :: t) ks = S (group_sizes K K_eq_dec key t ks).
Proof.
  induction ks as [|k ks IH]; intros Hnd Hin; [destruct Hin|].
  apply NoDup_cons_iff in Hnd. destruct Hnd as [Hk Hnd].
  cbn [group_sizes fold_right]. fold (group_sizes K K_eq_dec key (r :: t) ks).
  fold (group_sizes K K_eq_dec key t ks). unfold group at 1. cbn [filter].
  destruct (in_group K K_eq_dec key k r) eqn:G.
  - apply in_group_iff in G. rewrite group_sizes_cons_out by congruence.
    reflexivity.
  - destruct Hin as [Hin|Hin].
    { exfalso. symmetry in Hin. apply in_group_iff in Hin. congruence. }
    rewrite (IH Hnd Hin). fold (group K K_eq_dec key t k). lia.
Qed.

(** Every row falls in exactly one group. *)
Lemma group_sizes_total (t : table) : forall ks : list K,
  NoDup ks -> (forall r, In r t -> In (key r) ks) ->
  group_sizes K K_eq_dec key t ks = length t.
Proof.
  induction t as [|r t IH]; intros ks Hnd Hall.
  - induction ks as [|k ks IHk]; [reflexivity|].
    apply NoDup_cons_iff in Hnd. cbn [group_sizes fold_right].
    fold (group_sizes K K_eq_dec key [] ks). rewrite IHk; [reflexivity | tauto | intros r []].
  - rewrite group_sizes_cons_in by (auto using in_eq).
    cbn [length]. f_equal. apply IH; auto using in_cons.
Qed.
End GroupFacts.

Lemma populated_calendar_ok (t : table) : populated t -> all_calendar_ok t.
Proof.
  intros R. induction R as [|t r R IH]; [intros r []|].
  unfold insert_into. destruct (insert t r) as [t'|e] eqn:E; cbn [after].
  - exact (all_calendar_ok_insert t r t' IH E).
  - exact IH.
Qed.

(** ** [v_hourly_patterns] *)

Lemma hourly_keys_of_view (t : table) :
  map (fun p => (hp_item_id p, hp_hour p)) (v_hourly_patterns t)
  = group_keys _ hourly_key_eq_dec hourly_key t.
Proof.
  unfold v_hourly_patterns. rewrite map_map. cbn [hp_item_id hp_hour].
  rewrite <- (map_id (group_keys _ hourly_key_eq_dec hourly_key t)) at 2.
  apply map_ext. intros [i h]. reflexivity.
Qed.

(** X17. The view has exactly one row per (item_id, hour) of the table: no
    two rows of the view share a key, every stored row has its row in the
    view, and every row of the view has the key of a stored row.  Over a
    table built by inserts that key is an item and an hour in [0,23]. *)
Theorem hourly_patterns_shape (t : table) :
  populated t ->
  NoDup (map (fun p => (hp_item_id p, hp_hour p)) (v_hourly_patterns t))
  /\ (forall r, In r t ->
        exists p, In p (v_hourly_patterns t)
                  /\ hp_item_id p = item_id r /\ hp_hour p = hour r)
  /\ (forall p, In p (v_hourly_patterns t) ->
        exists i h r,
          hp_item_id p = Some i /\ hp_hour p = Some h /\ 0 <= h <= 23
          /\ In r t /\ item_id r = Some i /\ hour r = Some h).
Proof.
  intros R. pose proof (populated_calendar_ok t R) as Hcal.
  assert (Hcons : forall r, In r t ->
            exists i h, item_id r = Some i /\ hour r = Some h /\ 0 <= h <= 23).
  { intros r Hr.
    destruct (calendar_ok_ranges r (Hcal r Hr))
      as (mi & h & d & mo & wd & _ & Eh & _ & _ & _ & _ & Hh & _).
    destruct (item_id r) as [i|] eqn:Ei; [eauto|].
    exfalso.
    assert (P : ids_ok t /\ forall x, In x t -> not_null_ok x = true).
    { clear - R. induction R as [|t r0 R IH].
      - split; [split; [constructor|intros r []] | intros x []].
      - unfold insert_into. destruct (insert t r0) as [t'|e] eqn:E; cbn [after];
          [|exact IH].
        destruct IH as [I1 I2]. split; [exact (ids_ok_insert t r0 t' I1 E)|].
        apply insert_ok_inv in E. destruct E as (Hn & _ & _ & ->).
        intros x Hx. apply in_app_or in Hx.
        destruct Hx as [Hx|[<-|[]]]; auto. }
    destruct P as [_ P]. specialize (P r Hr). unfold not_null_ok in P.
    rewrite Ei in P. discriminate P. }
  split; [|split].
  - rewrite hourly_keys_of_view. apply group_keys_NoDup.
  - intros r Hr.
    assert (Hk : In (hourly_key r)
                    (map (fun p => (hp_item_id p, hp_hour p))
                       (v_hourly_patterns t))).
    { rewrite hourly_keys_of_view. apply group_keys_In. exists r. auto. }
    apply in_map_iff in Hk. destruct Hk as (p & E & Hp).
    exists p. unfold hourly_key in E. injection E as E1 E2. auto.
  - intros p Hp.
    assert (Hk : In (hp_item_id p, hp_hour p)
                    (group_keys _ hourly_key_eq_dec hourly_key t)).
    { rewrite <- hourly_keys_of_view.
      apply (in_map (fun p => (hp_item_id p, hp_hour p))). exact Hp. }
    apply group_keys_In in Hk. destruct Hk as (r & Hr & E).
    destruct (Hcons r Hr) as (i & h & Ei & Eh & Hh).
    unfold hourly_key in E. rewrite Ei, Eh in E. injection E as E1 E2.
    exists i, h, r. auto 10.
Qed.

Lemma hourly_patterns_shape_witness :
  NoDup (map (fun p => (hp_item_id p, hp_hour p)) (v_hourly_patterns two_buckets))
  /\ (forall r, In r two_buckets ->
        exists p, In p (v_hourly_patterns two_buckets)
                  /\ hp_item_id p = item_id r /\ hp_hour p = hour r)
  /\ (forall p, In p (v_hourly_patterns two_buckets) ->
        exists i h r,
          hp_item_id p = Some i /\ hp_hour p = Some h /\ 0 <= h <= 23
          /\ In r two_buckets /\ item_id r = Some i /\ hour r = Some h).
Proof.
  apply (hourly_patterns_shape two_buckets).
  apply populated_insert, populated_insert, populated_empty.
Defined.

(** ** Aggregates *)

Lemma normalize_not_nan (m e : Z) (s : bool) :
  Real.is_nan (binary_normalize Real.prec Real.emax m e s) = false.
Proof.
  unfold binary_normalize, binary_round.
  destruct m as [|p|p]; [reflexivity| |];
    destruct (shl_align _ _ _) as [mz ez];
    apply RealFacts.round_aux_not_nan; lia.
Qed.

Lemma add_not_nan (x y : Real.real) :
  Real.is_nan x = false ->
  match y with S754_zero _ | S754_finite _ _ _ => True | _ => False end ->
  Real.is_nan (Real.add x y) = false.
Proof.
  intros Hx Hy. unfold Real.add, SFadd.
  destruct x as [sx|sx| |sx mx ex]; try discriminate Hx;
    destruct y as [sy|sy| |sy my ey]; try contradiction;
    try reflexivity.
  - destruct sx, sy; reflexivity.
  - apply normalize_not_nan.
Qed.

Lemma div_by_finite_not_nan (x : Real.real) (s : bool) (m : positive) (e : Z) :
  Real.is_nan x = false ->
  Real.is_nan (Real.div x (S754_finite s m e)) = false.
Proof.
  intros Hx. destruct x as [sx|sx| |sx mx ex]; try discriminate Hx;
    try reflexivity.
  apply RealFacts.div_finite_not_nan.
Qed.

Lemma to_real_finite_or_zero (z : Z) :
  min_int64 <= z <= max_int64 ->
  match to_real z with S754_zero _ | S754_finite _ _ _ => True | _ => False end.
Proof.
  intros Hz. unfold to_real.
  destruct (Z.eq_dec z 0) as [->|Hz0]; [exact I|].
  destruct (RealFacts.of_int_finite z Hz0) as (s & m & e & ->);
    [unfold min_int64, max_int64 in Hz; lia | exact I].
Qed.

Lemma non_null_nil (vs : list value) :
  non_null vs = [] <-> forall v, In v vs -> v = VNull.
Proof.
  unfold non_null. induction vs as [|v vs IH]; cbn [filter].
  - split; [intros _ v []|reflexivity].
  - destruct v; cbn [is_null negb].
    + rewrite IH. split; intros H; [intros v [<-|Hv]; auto | intros v Hv; apply H; right; exact Hv].
    + split; [discriminate | intros H; specialize (H _ (or_introl eq_refl)); discriminate H].
    + split; [discriminate | intros H; specialize (H _ (or_introl eq_refl)); discriminate H].
Qed.

Lemma total_not_nan (vs : list value) :
  int_inputs vs -> Real.is_nan (agg_total vs) = false.
Proof.
  unfold agg_total. intros Hin.
  assert (Hin' : forall v, In v (non_null vs) ->
             exists z, v = VInt z /\ min_int64 <= z <= max_int64).
  { intros v Hv. apply filter_In in Hv. destruct Hv as [Hv Hnn].
    destruct (Hin v Hv) as [->|H]; [discriminate Hnn | exact H]. }
  clear Hin. revert Hin'.
  generalize (non_null vs) as xs. intros xs.
  assert (H0 : Real.is_nan Real.zero = false) by reflexivity.
  revert H0. generalize Real.zero as acc. revert xs.
  induction xs as [|x xs IH]; intros acc Hacc Hin; cbn [fold_left]; [exact Hacc|].
  apply IH; [|intros v Hv; apply Hin; right; exact Hv].
  destruct (Hin x (or_introl eq_refl)) as (z & -> & Hz). cbn [as_real].
  apply add_not_nan; [exact Hacc | apply to_real_finite_or_zero; exact Hz].
Qed.

(** [avg] over 64-bit integers is NULL exactly when every input is NULL. *)
Lemma agg_avg_null_iff (vs : list value) :
  int_inputs vs -> Z.of_nat (length vs) <= max_int64 ->
  (agg_avg vs = VNull <-> forall v, In v vs -> v = VNull).
Proof.
  intros Hin Hlen. rewrite <- non_null_nil. unfold agg_avg.
  destruct (non_null vs) as [|x xs] eqn:E; [split; reflexivity|].
  split; [|discriminate]. intros H. exfalso.
  assert (Hn : 0 < Z.of_nat (length (x :: xs)) <= 2 ^ 63).
  { split; [cbn [length]; lia|].
    assert (length (x :: xs) <= length vs)%nat
      by (rewrite <- E; unfold non_null; apply filter_length_le).
    unfold max_int64 in Hlen. lia. }
  destruct (of_int_pos_finite _ Hn) as (m & e & En).
  unfold to_real in H. rewrite En in H. unfold of_real in H.
  rewrite div_by_finite_not_nan in H by (apply total_not_nan; exact Hin).
  discriminate H.
Qed.

Lemma int_inputs_col (f : row -> option Z) (g : list row) :
  (forall r v, In r g -> f r = Some v -> min_int64 <= v <= max_int64) ->
  int_inputs (map (fun r => col (f r)) g).
Proof.
  intros H v Hv. apply in_map_iff in Hv. destruct Hv as (r & <- & Hr).
  destruct (f r) as [z|] eqn:E; [right|left; reflexivity].
  exists z. split; [reflexivity|]. exact (H r z Hr E).
Qed.

Lemma col_null_iff (c : option Z) : col c = VNull <-> c = None.
Proof. destruct c; split; intros H; try reflexivity; discriminate H. Qed.

Lemma hourly_view_In (t : table) (p : hourly_pattern) :
  In p (v_hourly_patterns t) ->
  exists k, In k (group_keys _ hourly_key_eq_dec hourly_key t)
            /\ hp_item_id p = fst k /\ hp_hour p = snd k
            /\ avg_buy_price p
               = agg_avg (map (fun r => col (buy_price r))
                            (group _ hourly_key_eq_dec hourly_key t k))
            /\ avg_sell_price p
               = agg_avg (map (fun r => col (sell_price r))
                            (group _ hourly_key_eq_dec hourly_key t k)).
Proof.
  unfold v_hourly_patterns. intros Hp. apply in_map_iff in Hp.
  destruct Hp as (k & <- & Hk). exists k. cbn. auto.
Qed.

(** X18. In a row of the hourly view an average price is NULL exactly when no
    row of that item and hour has the price: rows without it are skipped by
    [avg], and a single row with it makes the average a REAL. *)
Theorem hourly_avg_null (t : table) (p : hourly_pattern) :
  int64_prices t -> Z.of_nat (length t) <= max_int64 ->
  In p (v_hourly_patterns t) ->
  (avg_buy_price p = VNull
   <-> forall r, In r t -> item_id r = hp_item_id p -> hour r = hp_hour p ->
                 buy_price r = None)
  /\ (avg_sell_price p = VNull
      <-> forall r, In r t -> item_id r = hp_item_id p -> hour r = hp_hour p ->
                    sell_price r = None).
Proof.
  intros Hprices Hlen Hp.
  destruct (hourly_view_In t p Hp) as ([i h] & Hk & Ei & Eh & Eb & Es).
  cbn [fst snd] in Ei, Eh. rewrite Eb, Es, Ei, Eh.
  set (g := group _ hourly_key_eq_dec hourly_key t (i, h)).
  assert (Hg : forall r, In r g <-> In r t /\ item_id r = i /\ hour r = h).
  { intros r. subst g. rewrite group_In. unfold hourly_key.
    split; intros [H1 H2]; split; auto; [injection H2; auto | destruct H2; congruence]. }
  assert (Hglen : Z.of_nat (length g) <= max_int64).
  { assert (length g <= length t)%nat by (subst g; apply filter_length_le). lia. }
  split.
  - rewrite agg_avg_null_iff;
      [| apply int_inputs_col; intros r v Hr E; apply (Hprices r v);
         [apply Hg; exact Hr | left; exact E]
       | rewrite length_map; exact Hglen].
    split.
    + intros H r Hr Hi Hh. apply col_null_iff.
      apply H. apply in_map_iff. exists r. split; [reflexivity|].
      apply Hg. auto.
    + intros H v Hv. apply in_map_iff in Hv. destruct Hv as (r & <- & Hr).
      apply Hg in Hr. destruct Hr as (Hr & Hi & Hh).
      apply col_null_iff. apply H; assumption.
  - rewrite agg_avg_null_iff;
      [| apply int_inputs_col; intros r v Hr E; apply (Hprices r v);
         [apply Hg; exact Hr | right; exact E]
       | rewrite length_map; exact Hglen].
    split.
    + intros H r Hr Hi Hh. apply col_null_iff.
      apply H. apply in_map_iff. exists r. split; [reflexivity|].
      apply Hg. auto.
    + intros H v Hv. apply in_map_iff in Hv. destruct Hv as (r & <- & Hr).
      apply Hg in Hr. destruct Hr as (Hr & Hi & Hh).
      apply col_null_iff. apply H; assumption.
Qed.

Lemma hourly_avg_null_witness :
  exists p, In p (v_hourly_patterns (insert_into [] Examples.first_synthesis))
            /\ avg_sell_price p = VNull /\ avg_buy_price p <> VNull.
Proof.
  assert (Hprices : int64_prices (insert_into [] Examples.first_synthesis)).
  { intros r v [<-|[]] [E|E]; cbn in E; try discriminate E.
    injection E as <-. unfold min_int64, max_int64. lia. }
  assert (Hlen : Z.of_nat (length (insert_into [] Examples.first_synthesis))
                 <= max_int64)
    by (apply Z.leb_le; reflexivity).
  eexists. split; [left; reflexivity|].
  destruct (hourly_avg_null _ _ Hprices Hlen (or_introl eq_refl)) as [Hb Hs].
  split.
  - apply Hs. intros r [<-|[]] _ _. reflexivity.
  - intros H. apply (proj1 Hb) with (r := with_id Examples.first_synthesis 1) in H;
      [discriminate H | left; reflexivity | reflexivity | reflexivity].
Defined.

(** ** [v_daily_price_summary] *)

Lemma collect_inv {A B : Type} (f : A -> query_result B) (l : list A) :
  forall bs, collect f l = Rows bs -> Forall2 (fun a b => f a = Rows b) l bs.
Proof.
  induction l as [|a l IH]; intros bs E; cbn [collect] in E.
  - injection E as <-. constructor.
  - destruct (f a) as [b|e] eqn:Ea; [|discriminate E].
    destruct (collect f l) as [bs'|e]; [|discriminate E].
    injection E as <-. constructor; [exact Ea | apply IH; reflexivity].
Qed.

Lemma collect_total {A B : Type} (f : A -> query_result B) (l : list A) :
  (forall a, In a l -> exists b, f a = Rows b) ->
  exists bs, collect f l = Rows bs.
Proof.
  induction l as [|a l IH]; intros H; cbn [collect]; [eauto|].
  destruct (H a (or_introl eq_refl)) as (b & ->).
  destruct IH as (bs & ->); [intros x Hx; apply H; right; exact Hx|]. eauto.
Qed.

Section DailyFacts.
Variable date_unixepoch : Z -> option String.string.

Let dkey := daily_key date_unixepoch.
Let dgroup (t : table) k := group _ daily_key_eq_dec dkey t k.

Lemma daily_row_inv (t : table) k (p : daily_summary) :
  daily_row date_unixepoch t k = Rows p ->
  ds_item_id p = fst k /\ trade_date p = snd k
  /\ data_points p = Z.of_nat (length (dgroup t k))
  /\ agg_sum (map wiki_volume (dgroup t k)) = Rows (total_volume p).
Proof.
  unfold daily_row. fold dkey. fold (dgroup t k).
  destruct (agg_sum (map wiki_volume (dgroup t k))) as [v|e]; [|discriminate].
  intros E. injection E as <-. cbn. auto.
Qed.

Lemma daily_points_sizes (t : table) (ks : list (option Z * option String.string))
      (rows : list daily_summary) :
  Forall2 (fun k p => daily_row date_unixepoch t k = Rows p) ks rows ->
  sum_points rows = Z.of_nat (group_sizes _ daily_key_eq_dec dkey t ks)
  /\ map (fun p => (ds_item_id p, trade_date p)) rows = ks.
Proof.
  induction 1 as [|k p ks rows Hk _ IH]; [split; reflexivity|].
  destruct IH as [IH1 IH2].
  apply daily_row_inv in Hk. destruct Hk as (E1 & E2 & E3 & _).
  cbn [sum_points fold_right group_sizes map].
  fold (sum_points rows). fold (group_sizes _ daily_key_eq_dec dkey t ks).
  fold (dgroup t k). split.
  - rewrite IH1, E3. lia.
  - rewrite IH2, E1, E2. destruct k; reflexivity.
Qed.

(** X19. When the daily summary can be computed, it has one row per
    (item_id, trade_date); every row counts at least one data point, and the
    data points of all rows add up to the number of rows of the table: each
    row of the table is counted in exactly one day. *)
Theorem daily_summary_points (t : table) (rows : list daily_summary) :
  v_daily_price_summary date_unixepoch t = Rows rows ->
  sum_points rows = Z.of_nat (length t)
  /\ (forall p, In p rows -> 1 <= data_points p)
  /\ NoDup (map (fun p => (ds_item_id p, trade_date p)) rows).
Proof.
  unfold v_daily_price_summary. fold dkey. intros E.
  apply collect_inv in E.
  destruct (daily_points_sizes t _ rows E) as [Hsum Hkeys].
  split; [|split].
  - rewrite Hsum. f_equal. apply group_sizes_total.
    + apply group_keys_NoDup.
    + intros r Hr. apply group_keys_In. eauto.
  - intros p Hp.
    assert (Hk : In (ds_item_id p, trade_date p)
                    (group_keys _ daily_key_eq_dec dkey t)).
    { rewrite <- Hkeys.
      apply (in_map (fun p => (ds_item_id p, trade_date p))). exact Hp. }
    apply group_keys_In in Hk. destruct Hk as (r & Hr & Ek).
    clear Hsum Hkeys. induction E as [|k q ks rows Hq _ IH]; [destruct Hp|].
    destruct Hp as [->|Hp]; [|exact (IH Hp)].
    apply daily_row_inv in Hq. destruct Hq as (E1 & E2 & E3 & _).
    assert (In r (dgroup t k)).
    { apply group_In. split; [exact Hr|].
      rewrite Ek, E1, E2. destruct k; reflexivity. }
    rewrite E3. destruct (dgroup t k); [contradiction|]. cbn [length]. lia.
  - rewrite Hkeys. apply group_keys_NoDup.
Qed.
End DailyFacts.

Lemma daily_summary_points_witness :
  exists rows,
    v_daily_price_summary (fun ts => Some (UtilTime.str (ts / 86400))) two_buckets
    = Rows rows
    /\ sum_points rows = Z.of_nat (length two_buckets).
Proof.
  eexists. split; [reflexivity|].
  apply (daily_summary_points (fun ts => Some (UtilTime.str (ts / 86400)))
           two_buckets _ eq_refl).
Defined.

Lemma present_sum_some (x : Z) (xs : list (option Z)) :
  present_sum (Some x :: xs) = x + present_sum xs.
Proof. reflexivity. Qed.

Lemma present_sum_none (xs : list (option Z)) :
  present_sum (None :: xs) = present_sum xs.
Proof. reflexivity. Qed.

Lemma present_sum_nonneg (xs : list (option Z)) :
  (forall v, In (Some v) xs -> 0 <= v) -> 0 <= present_sum xs.
Proof.
  induction xs as [|[x|] xs IH]; intros H.
  - cbn. lia.
  - rewrite present_sum_some.
    assert (0 <= x) by (apply H; left; reflexivity).
    assert (0 <= present_sum xs) by (apply IH; intros v Hv; apply H; right; exact Hv).
    lia.
  - rewrite present_sum_none. apply IH. intros v Hv. apply H. right. exact Hv.
Qed.

Lemma sum_from_nonneg (xs : list (option Z)) : forall acc : option Z,
  (forall v, In (Some v) xs -> 0 <= v) ->
  match acc with Some a => 0 <= a | None => True end ->
  match acc with Some a => a | None => 0 end + present_sum xs <= max_int64 ->
  sum_from acc xs
  = Rows match acc with
         | Some a => Some (a + present_sum xs)
         | None =>
             if forallb (fun x => match x with None => true | Some _ => false end) xs
             then None else Some (present_sum xs)
         end.
Proof.
  induction xs as [|[x|] xs IH]; intros acc Hnn Hacc Hfit.
  - cbn. destruct acc; [rewrite Z.add_0_r|]; reflexivity.
  - assert (Hx : 0 <= x) by (apply Hnn; left; reflexivity).
    assert (Hrest : forall v, In (Some v) xs -> 0 <= v)
      by (intros v Hv; apply Hnn; right; exact Hv).
    pose proof (present_sum_nonneg xs Hrest) as Hps.
    rewrite present_sum_some in *. cbn [sum_from forallb].
    destruct acc as [a|].
    + rewrite (proj2 (SqlFacts.in_int64_iff (a + x)))
        by (unfold min_int64, max_int64 in *; lia).
      rewrite (IH (Some (a + x))) by (auto; lia). do 2 f_equal. lia.
    + rewrite (proj2 (SqlFacts.in_int64_iff x))
        by (unfold min_int64, max_int64 in *; lia).
      rewrite (IH (Some x)) by (auto; lia). reflexivity.
  - rewrite present_sum_none in *. cbn [sum_from forallb].
    rewrite (IH acc) by (auto; intros v Hv; apply Hnn; right; exact Hv).
    reflexivity.
Qed.

Lemma present_sum_filter (f : row -> bool) (t : table) :
  (forall r v, In r t -> wiki_volume r = Some v -> 0 <= v) ->
  present_sum (map wiki_volume (filter f t)) <= present_sum (map wiki_volume t).
Proof.
  induction t as [|r t IH]; intros Hnn; [cbn; lia|].
  assert (Ht : forall r v, In r t -> wiki_volume r = Some v -> 0 <= v)
    by (intros x v Hx; apply Hnn; right; exact Hx).
  specialize (IH Ht).
  assert (Hps : 0 <= present_sum (map wiki_volume (filter f t))).
  { apply present_sum_nonneg. intros v Hv. apply in_map_iff in Hv.
    destruct Hv as (x & Ex & Hx). apply filter_In in Hx.
    exact (Ht x v (proj1 Hx) Ex). }
  cbn [filter map].
  destruct (wiki_volume r) as [v|] eqn:E.
  - assert (0 <= v) by (apply (Hnn r v); [left; reflexivity | exact E]).
    rewrite present_sum_some.
    destruct (f r); cbn [map]; rewrite ?E, ?present_sum_some; lia.
  - rewrite present_sum_none.
    destruct (f r); cbn [map]; rewrite ?E, ?present_sum_none; lia.
Qed.

Lemma all_none_forallb (xs : list (option Z)) :
  forallb (fun x => match x with None => true | Some _ => false end) xs = true
  <-> forall x, In x xs -> x = None.
Proof.
  rewrite forallb_forall. split; intros H x Hx; specialize (H x Hx);
    destruct x; try reflexivity; discriminate H.
Qed.

(** X20. With non-negative snapshot volumes whose sum over the table fits 64
    bits, the daily summary never fails with an integer overflow, and the
    total volume of a day is NULL when no row of the day has a snapshot
    volume and the sum of the volumes present otherwise. *)
Theorem daily_total_volume (date_unixepoch : Z -> option String.string)
        (t : table) :
  (forall r v, In r t -> wiki_volume r = Some v -> 0 <= v) ->
  present_sum (map wiki_volume t) <= max_int64 ->
  exists rows,
    v_daily_price_summary date_unixepoch t = Rows rows
    /\ forall p, In p rows ->
         let g := group _ daily_key_eq_dec (daily_key date_unixepoch) t
                    (ds_item_id p, trade_date p) in
         ((forall r, In r g -> wiki_volume r = None) -> total_volume p = VNull)
         /\ ((exists r, In r g /\ wiki_volume r <> None) ->
             total_volume p = VInt (present_sum (map wiki_volume g))).
Proof.
  intros Hnn Hfit.
  assert (Hsum : forall k,
            agg_sum (map wiki_volume
                       (group _ daily_key_eq_dec (daily_key date_unixepoch) t k))
            = Rows (if forallb (fun x => match x with None => true | Some _ => false end)
                         (map wiki_volume
                            (group _ daily_key_eq_dec (daily_key date_unixepoch) t k))
                    then VNull
                    else VInt (present_sum
                                 (map wiki_volume
                                    (group _ daily_key_eq_dec
                                       (daily_key date_unixepoch) t k))))).
  { intros k. unfold agg_sum. rewrite sum_from_nonneg.
    - destruct (forallb _ _); reflexivity.
    - intros v Hv. apply in_map_iff in Hv. destruct Hv as (r & E & Hr).
      apply group_In in Hr. exact (Hnn r v (proj1 Hr) E).
    - exact I.
    - pose proof (present_sum_filter
                    (in_group _ daily_key_eq_dec (daily_key date_unixepoch) k)
                    t Hnn). unfold group. lia. }
  destruct (collect_total (daily_row date_unixepoch t)
              (group_keys _ daily_key_eq_dec (daily_key date_unixepoch) t))
    as (rows & E).
  { intros k _. unfold daily_row. rewrite Hsum. eauto. }
  exists rows. split; [exact E|].
  apply collect_inv in E. intros p Hp.
  assert (Hk : exists k, daily_row date_unixepoch t k = Rows p).
  { clear - E Hp. induction E as [|k q ks rows Hq _ IH]; [destruct Hp|].
    destruct Hp as [->|Hp]; eauto. }
  destruct Hk as (k & Hk). apply daily_row_inv in Hk.
  destruct Hk as (E1 & E2 & _ & E4).
  replace (ds_item_id p, trade_date p) with k
    by (rewrite E1, E2; destruct k; reflexivity).
  cbn zeta. rewrite Hsum in E4. injection E4 as E4. split.
  - intros Hnone. rewrite <- E4.
    replace (forallb _ _) with true; [reflexivity|].
    symmetry. apply all_none_forallb. intros x Hx.
    apply in_map_iff in Hx. destruct Hx as (r & <- & Hr). exact (Hnone r Hr).
  - intros (r & Hr & Hsome). rewrite <- E4.
    replace (forallb _ _) with false; [reflexivity|].
    symmetry. apply not_true_is_false. intros Hall.
    apply Hsome. apply (proj1 (all_none_forallb _) Hall).
    apply in_map. exact Hr.
Qed.

Lemma daily_total_volume_witness :
  map wiki_volume snapshot_days = [Some 28800; Some 28800; None]
  /\ (exists rows,
        v_daily_price_summary (fun ts => Some (UtilTime.str (ts / 86400)))
          snapshot_days = Rows rows
        /\ map total_volume rows = [VInt 57600; VNull])
  /\ exists rows,
    v_daily_price_summary (fun ts => Some (UtilTime.str (ts / 86400)))
      snapshot_days = Rows rows
    /\ forall p, In p rows ->
         let g := group _ daily_key_eq_dec
                    (daily_key (fun ts => Some (UtilTime.str (ts / 86400))))
                    snapshot_days
                    (ds_item_id p, trade_date p) in
         ((forall r, In r g -> wiki_volume r = None) -> total_volume p = VNull)
         /\ ((exists r, In r g /\ wiki_volume r <> None) ->
             total_volume p = VInt (present_sum (map wiki_volume g))).
Proof.
  split; [reflexivity|].
  split; [eexists; split; [vm_compute; reflexivity | reflexivity]|].
  apply (daily_total_volume (fun ts => Some (UtilTime.str (ts / 86400)))
           snapshot_days).
  - intros r v Hin E. vm_compute in Hin.
    destruct Hin as [<-|[<-|[<-|[]]]]; cbn in E; try discriminate E;
      injection E as <-; lia.
  - apply Z.leb_le. reflexivity.
Defined.

(* ================================================================== *)
(** * The time utilities *)
(* ================================================================== *)

(** X21. [loc_unix_dt_3] on an integer Unix time fails only when
    [date.fromtimestamp] does: the hour, minute and second it computes are
    always in the ranges [datetime.time] accepts, for negative times too,
    and they recompose to the second of the day, [unix mod 86400]. *)
Theorem loc_unix_dt_3_time (date : Type)
        (date_fromtimestamp : Z -> UtilTime.outcome date) (unix : Z) :
  match date_fromtimestamp unix with
  | UtilTime.Raise e =>
      UtilTime.loc_unix_dt_3 date date_fromtimestamp unix = UtilTime.Raise e
  | UtilTime.Return d =>
      exists t,
        UtilTime.loc_unix_dt_3 date date_fromtimestamp unix
        = UtilTime.Return (d, t)
        /\ 0 <= UtilTime.t_hour t < 24 /\ 0 <= UtilTime.t_minute t < 60
        /\ 0 <= UtilTime.t_second t < 60
        /\ 3600 * UtilTime.t_hour t + 60 * UtilTime.t_minute t
           + UtilTime.t_second t = unix mod 86400
  end.
Proof.
  unfold UtilTime.loc_unix_dt_3.
  destruct (date_fromtimestamp unix) as [d|e]; [|reflexivity].
  set (h := unix mod 86400 / 3600).
  set (m := unix mod 3600 / 60).
  set (s := unix mod 60).
  assert (Hh : 0 <= h < 24).
  { subst h. pose proof (Z.mod_pos_bound unix 86400 ltac:(lia)).
    split; [apply Z.div_pos; lia | apply Z.div_lt_upper_bound; lia]. }
  assert (Hm : 0 <= m < 60).
  { subst m. pose proof (Z.mod_pos_bound unix 3600 ltac:(lia)).
    split; [apply Z.div_pos; lia | apply Z.div_lt_upper_bound; lia]. }
  assert (Hs : 0 <= s < 60) by (subst s; apply Z.mod_pos_bound; lia).
  assert (Hsum : 3600 * h + 60 * m + s = unix mod 86400).
  { assert (E1 : (unix mod 86400) mod 3600 = unix mod 3600).
    { apply Z.mod_mod_divide. exists 24. reflexivity. }
    assert (E2 : (unix mod 3600) mod 60 = unix mod 60).
    { apply Z.mod_mod_divide. exists 60. reflexivity. }
    pose proof (Z.div_mod (unix mod 86400) 3600 ltac:(lia)) as D1.
    pose proof (Z.div_mod (unix mod 3600) 60 ltac:(lia)) as D2.
    subst h m s. lia. }
  exists (UtilTime.mkTime h m s). split; [|cbn; auto].
  unfold UtilTime.datetime_time.
  replace ((0 <=? h) && (h <? 24)) with true
    by (symmetry; apply andb_true_iff; split; [apply Z.leb_le|apply Z.ltb_lt]; lia).
  replace ((0 <=? m) && (m <? 60)) with true
    by (symmetry; apply andb_true_iff; split; [apply Z.leb_le|apply Z.ltb_lt]; lia).
  replace ((0 <=? s) && (s <? 60)) with true
    by (symmetry; apply andb_true_iff; split; [apply Z.leb_le|apply Z.ltb_lt]; lia).
  reflexivity.
Qed.

(* ================================================================== *)
(** * The sign of a price gap *)
(* ================================================================== *)

Lemma round_aux_sign (sx : bool) (mx ex : Z) (lx : location) :
  0 <= mx ->
  sign_bit (binary_round_aux Real.prec Real.emax sx mx ex lx) = sx.
Proof.
  intros Hm. unfold binary_round_aux.
  pose proof (RealFacts.shr_fexp_nonneg mx ex lx Hm) as H1.
  destruct (shr_fexp Real.prec Real.emax mx ex lx) as [mrs1 e1]. cbn [fst] in H1.
  set (q := round_nearest_even (shr_m mrs1) (loc_of_shr_record mrs1)).
  assert (Hq : 0 <= q)
    by (subst q; destruct (RealFacts.round_nearest_even_cases (shr_m mrs1)
                             (loc_of_shr_record mrs1)) as [->| ->]; lia).
  pose proof (RealFacts.shr_fexp_nonneg q e1 loc_Exact Hq) as H2.
  destruct (shr_fexp Real.prec Real.emax q e1 loc_Exact) as [mrs2 e2].
  cbn [fst] in H2.
  destruct (shr_m mrs2) as [|k|k]; try reflexivity; [|lia].
  destruct (e2 <=? Real.emax - Real.prec); reflexivity.
Qed.

Lemma div_finite_sign (sx sy : bool) (mx my : positive) (ex ey : Z) :
  sign_bit (Real.div (S754_finite sx mx ex) (S754_finite sy my ey)) = xorb sx sy.
Proof.
  unfold Real.div, SFdiv, SFdiv_core_binary.
  set (m' := match _ - _ - _ with Z0 => _ | Zpos _ => _ | Zneg _ => _ end).
  assert (Hm' : 0 <= m').
  { subst m'. destruct (_ - _ - _); try lia. apply Z.shiftl_nonneg. lia. }
  pose proof (Z_div_mod m' (Zpos my) ltac:(lia)) as Hdm.
  destruct (Z.div_eucl m' (Zpos my)) as [q r].
  apply round_aux_sign. nia.
Qed.

Lemma of_int_signed (z : Z) :
  z <> 0 -> - 2 ^ 63 <= z <= 2 ^ 63 ->
  exists (m : positive) (e : Z), Real.of_int z = S754_finite (z <? 0) m e.
Proof.
  intros Hz Hb. destruct z as [|p|p]; [contradiction| |];
    unfold Real.of_int, binary_normalize.
  - destruct (Z_lt_le_dec (Zpos p) (2 ^ 53)) as [Hlt|Hge].
    + destruct (RealFacts.binary_round_small false p Hlt) as (m & E & _). eauto.
    + destruct (RealFacts.binary_round_large false p) as (m & e & E & _);
        [lia|]. eauto.
  - destruct (Z_lt_le_dec (Zpos p) (2 ^ 53)) as [Hlt|Hge].
    + destruct (RealFacts.binary_round_small true p Hlt) as (m & E & _). eauto.
    + destruct (RealFacts.binary_round_large true p) as (m & e & E & _);
        [lia|]. eauto.
Qed.

Lemma ratio_sign (x y w : Z) :
  0 <= x <= max_int64 -> 0 <= y <= max_int64 -> 0 < w <= max_int64 ->
  x <> y ->
  sign_bit (Real.div (Real.of_int (x - y)) (Real.of_int w)) = (x <? y).
Proof.
  intros Hx Hy Hw Hne.
  destruct (of_int_signed (x - y)) as (m & e & ->);
    [lia | unfold max_int64 in *; lia |].
  destruct (of_int_signed w) as (mw & ew & ->);
    [lia | unfold max_int64 in *; lia |].
  rewrite div_finite_sign.
  replace (w <? 0) with false by (symmetry; apply Z.ltb_ge; lia).
  rewrite xorb_false_r.
  destruct (Z.ltb_spec (x - y) 0), (Z.ltb_spec x y); try reflexivity; lia.
Qed.

(** X16. A gap between two different prices carries the sign of their
    difference: with a positive reference, the gap of the buy (sell) price
    to the reference is a REAL whose sign bit is set exactly when the price
    is below the reference, and the sell/buy gap has it set exactly when
    sell is below buy. *)
Theorem price_ratio_sign (r : row) (w : Z) :
  wiki_price r = Some w -> 0 < w <= max_int64 ->
  (forall b, buy_price r = Some b -> 0 <= b <= max_int64 -> b <> w ->
     exists f, price_ratio_buy_wiki r = VReal f /\ sign_bit f = (b <? w))
  /\ (forall s, sell_price r = Some s -> 0 <= s <= max_int64 -> s <> w ->
        exists f, price_ratio_sell_wiki r = VReal f /\ sign_bit f = (s <? w))
  /\ (forall b s, buy_price r = Some b -> sell_price r = Some s ->
        0 < b <= max_int64 -> 0 <= s <= max_int64 -> s <> b ->
        exists f, price_ratio_sell_buy r = VReal f /\ sign_bit f = (s <? b)).
Proof.
  intros Ew Hw.
  assert (G : (0 <? w) = true) by (apply Z.ltb_lt; lia).
  split; [|split].
  - intros b Eb Hb Hne. eexists. split.
    + unfold price_ratio_buy_wiki, sql_case.
      rewrite positive_guard, Ew, Eb, G. cbn [col].
      rewrite ratio_int by lia. reflexivity.
    + apply ratio_sign; lia.
  - intros s Es Hs Hne. eexists. split.
    + apply (price_ratio_sell_wiki_value_gen r w s); assumption.
    + apply ratio_sign; lia.
  - intros b s Eb Es Hb Hs Hne. eexists. split.
    + unfold price_ratio_sell_buy, sql_case. rewrite Ew, Eb, Es. cbn [col].
      rewrite !SqlFacts.sql_gt_int, SqlFacts.sql_and_bool,
        SqlFacts.truth_of_bool, G.
      replace (0 <? b) with true by (symmetry; apply Z.ltb_lt; lia).
      cbn [andb]. rewrite ratio_int by lia. reflexivity.
    + apply ratio_sign; lia.
Qed.

Lemma price_ratio_sign_witness :
  (exists f, price_ratio_buy_wiki full_row = VReal f /\ sign_bit f = (90 <? 100))
  /\ (exists f, price_ratio_sell_wiki full_row = VReal f
                /\ sign_bit f = (110 <? 100)).
Proof.
  destruct (price_ratio_sign full_row 100 eq_refl
              ltac:(unfold max_int64; lia)) as (A & B & _).
  split.
  - apply (A 90); [reflexivity | unfold max_int64; lia | lia].
  - apply (B 110); [reflexivity | unfold max_int64; lia | lia].
Defined.
